(** * qredisclient: the Connection engine of [connection.cpp]

  A shallow embedding of [src/qredisclient/connection.cpp]:
  the SCAN continuation ([processScanCommand] and the two
  [retrieveCollection*] entry points), the [INFO] parser
  ([ServerInfo::fromString]), the authentication / mode detection slot
  ([auth]), the cluster traversals ([getClusterKeys], [flushDbKeys],
  [clusterConnectToNextMasterNode], [getMasterNodes]) and the deferred
  dispatch of [runCommand] / [callAfterConnect].

  Conventions.
  - [QByteArray] and [QString] are [string]s (byte strings); the case
    mapping of [QString::toLower] is the ASCII one.
  - C++ [int] values are in [Z]; [QString::toInt] yields 0 when the text
    is no decimal [int].
  - Asynchronous code is in continuation-passing style: a callback is a
    function returning the list of observable actions it performs, and a
    function that waits for the transporter takes the replies still to
    come as a list and consumes its head.  A run whose list of replies is
    exhausted stays pending: its trace simply ends.
  - The SCAN chains and the cluster traversals run on a Connection that
    is connected, where [runCommand] hands the command to the
    transporter; the single command of [flushDbKeys] outside cluster
    mode is issued on a Connection in any state ([Link]); module
    [Dispatch] has [runCommand] in full, with the deferral of a command
    issued before the Connection is connected.
  - [throw Exception(..)] is the left injection of [Throws].
  - No translator is installed, and the default locale is the C locale,
    which writes a number without group separators: [tr] returns its
    source text, and [QString::arg] puts the same text at a place marker
    with the L flag as at one without. *)

From Stdlib Require Import String Ascii ZArith List Bool Lia.
From Stdlib Require Import DecimalString.
From stdpp Require Import gmap strings list.
Import ListNotations.

Open Scope string_scope.
Open Scope Z_scope.
Open Scope list_scope.

(* ===================================================================== *)
(** ** Text helpers (Qt's [QString] / [QByteArray] operations used)      *)
(* ===================================================================== *)

Module Text.

Definition isEmpty (s : string) : bool :=
  match s with EmptyString => true | String _ _ => false end.

Definition is_digit (c : ascii) : bool :=
  let n := N_of_ascii c in ((48 <=? n) && (n <=? 57))%N.

Definition is_letter (c : ascii) : bool :=
  let n := N_of_ascii c in
  (((65 <=? n) && (n <=? 90)) || ((97 <=? n) && (n <=? 122)))%N.

Definition lower_ascii (c : ascii) : ascii :=
  let n := N_of_ascii c in
  if ((65 <=? n) && (n <=? 90))%N then ascii_of_N (n + 32) else c.

(** [QString::toLower] *)
Fixpoint toLower (s : string) : string :=
  match s with
  | EmptyString => EmptyString
  | String c s' => String (lower_ascii c) (toLower s')
  end.

(** value of a run of decimal digits, most significant first *)
Fixpoint digits_value (acc : Z) (s : string) : option Z :=
  match s with
  | EmptyString => Some acc
  | String c s' =>
      if is_digit c
      then digits_value (10 * acc + Z.of_N (N_of_ascii c - 48)) s'
      else None
  end.

(** [QChar::isSpace] on ASCII: space and the controls 9..13 *)
Definition is_space (c : ascii) : bool :=
  let n := N_of_ascii c in ((n =? 32) || ((9 <=? n) && (n <=? 13)))%N.

Fixpoint trimLeft (s : string) : string :=
  match s with
  | EmptyString => EmptyString
  | String c s' => if is_space c then trimLeft s' else s
  end.

Fixpoint trimRight (s : string) : string :=
  match s with
  | EmptyString => EmptyString
  | String c s' =>
      match trimRight s' with
      | EmptyString => if is_space c then EmptyString else String c EmptyString
      | t => String c t
      end
  end.

(** [QString::trimmed] *)
Definition trimmed (s : string) : string := trimRight (trimLeft s).

(** An optionally signed decimal numeral. *)
Definition parse_decimal (s : string) : option Z :=
  match s with
  | EmptyString => None
  | String "-" (String c s') => Z.opp <$> digits_value 0 (String c s')
  | String "+" (String c s') => digits_value 0 (String c s')
  | _ => digits_value 0 s
  end.

Definition INT_MAX : Z := 2147483647.
Definition INT_MIN : Z := -2147483648.
Definition ULLONG_MAX : Z := 18446744073709551615.

(** [QString::toInt()]: the decimal value of the text without the white
    space around it, and 0 when that is no numeral or the value is
    outside [int]. *)
Definition toInt (s : string) : Z :=
  match parse_decimal (trimmed s) with
  | Some z => if (INT_MIN <=? z) && (z <=? INT_MAX) then z else 0
  | None => 0
  end.

(** An unsigned 64-bit cursor, when the text is one. *)
Definition toULongLong (s : string) : option Z :=
  match s with
  | EmptyString => None
  | _ => match digits_value 0 s with
         | Some z => if z <=? ULLONG_MAX then Some z else None
         | None => None
         end
  end.

(** [QString::number(n)] *)
Definition number (z : Z) : string := NilZero.string_of_int (Z.to_int z).

Definition LLONG_MAX : Z := 9223372036854775807.
Definition LLONG_MIN : Z := -9223372036854775808.

(** [toLongLong()]: the decimal value of the text without the white
    space around it, and 0 when that is no numeral or the value is
    outside [long long]. *)
Definition toLongLong (s : string) : Z :=
  match parse_decimal (trimmed s) with
  | Some z => if (LLONG_MIN <=? z) && (z <=? LLONG_MAX) then z else 0
  | None => 0
  end.

(** [int(n)] for a 64-bit [n]: the value modulo 2^32, as a signed [int] *)
Definition narrowToInt (z : Z) : Z :=
  (z + 2147483648) mod 4294967296 - 2147483648.

(** [QChar::digitValue()] *)
Definition digitValue (c : ascii) : option nat :=
  if is_digit c then Some (N.to_nat (N_of_ascii c - 48)) else None.

(** The place marker of [QString::arg] whose percent sign has just been
    read: an optional L, then one digit, or two when a second one
    follows.  The number of the marker and the text after it. *)
Definition escapeAt (s : string) : option (nat * string) :=
  let s := match s with String "L" r => r | _ => s end in
  match s with
  | String d1 r1 =>
      match digitValue d1 with
      | Some v1 =>
          match r1 with
          | String d2 r2 =>
              match digitValue d2 with
              | Some v2 => Some ((10 * v1 + v2)%nat, r2)
              | None => Some (v1, r1)
              end
          | EmptyString => Some (v1, r1)
          end
      | None => None
      end
  | EmptyString => None
  end.

(** [findArgEscapes]: the lowest number among the place markers of [s];
    [skip] counts the characters of a marker still to be passed. *)
Fixpoint minEscape (skip : nat) (s : string) : option nat :=
  match s with
  | EmptyString => None
  | String c r =>
      match skip with
      | S k => minEscape k r
      | O =>
          if Ascii.eqb c "%" then
            match escapeAt r with
            | Some (n, rest) =>
                Some (match minEscape (String.length r - String.length rest) r with
                      | Some m => Nat.min n m
                      | None => n
                      end)
            | None => minEscape O r
            end
          else minEscape O r
      end
  end.

(** [replaceArgEscapes]: every place marker numbered [n] becomes [a], and
    all other text, other markers included, stays. *)
Fixpoint replaceEscapes (n : nat) (a : string) (skip : nat) (s : string) : string :=
  match s with
  | EmptyString => EmptyString
  | String c r =>
      match skip with
      | S k => replaceEscapes n a k r
      | O =>
          if Ascii.eqb c "%" then
            match escapeAt r with
            | Some (m, rest) =>
                if (m =? n)%nat
                then a +:+ replaceEscapes n a
                             (String.length r - String.length rest) r
                else String c (replaceEscapes n a O r)
            | None => String c (replaceEscapes n a O r)
            end
          else String c (replaceEscapes n a O r)
      end
  end.

(** [QString::arg(a)]: the place markers with the lowest number are
    replaced by [a]; a text without a place marker is returned as it
    is. *)
Definition arg (s a : string) : string :=
  match minEscape 0 s with
  | Some n => replaceEscapes n a 0 s
  | None => s
  end.

(** [QString::arg(int n)]: the decimal text of [n] at the markers with
    the lowest number (at those with the L flag the text that the
    default locale gives [n], here the same). *)
Definition argInt (s : string) (n : Z) : string := arg s (number n).

(** [QByteArray::contains(needle)] *)
Fixpoint contains (needle hay : string) : bool :=
  String.prefix needle hay ||
  match hay with
  | EmptyString => false
  | String _ hay' => contains needle hay'
  end.

End Text.

(* ===================================================================== *)
(** ** QVariant and Response                                              *)
(* ===================================================================== *)

#[local] Unset Elimination Schemes.

(** The [QVariant] payloads that occur in this file. *)
Inductive QVariant : Type :=
| QNull                        (* QVariant() *)
| QInt (z : Z)
| QBytes (s : string)
| QList (l : list QVariant).

Module Variant.

Definition toString (v : QVariant) : string :=
  match v with
  | QBytes s => s
  | QInt z => Text.number z
  | QNull | QList _ => EmptyString
  end.

Definition toByteArray (v : QVariant) : string := toString v.

Definition toList (v : QVariant) : list QVariant :=
  match v with
  | QList l => l
  | _ => []
  end.

(** a list converts element by element, a byte array does not convert *)
Definition toStringList (v : QVariant) : list string :=
  match v with
  | QList l => map toString l
  | _ => []
  end.

(** [QVariant::toInt()]: the value as a 64-bit integer (that of
    [toLongLong()] for a text), narrowed to [int] *)
Definition toInt (v : QVariant) : Z :=
  match v with
  | QInt z => Text.narrowToInt z
  | QBytes s => Text.narrowToInt (Text.toLongLong s)
  | _ => 0
  end.

End Variant.

(** Modelled from the spec: [response.h] / [response.cpp] are not part of
  the sources.  A Response is a tagged value tree: null, integer,
  status string, error string, bulk bytes or array of Responses. *)
Inductive Response : Type :=
| RNull
| RInteger (z : Z)
| RStatus (s : string)
| RError (s : string)
| RBulk (s : string)
| RArray (l : list Response).

#[local] Set Elimination Schemes.

Module Resp.

(** Modelled from the spec: [Response::value()], the reply as a
    [QVariant]; strings of every kind are byte arrays, an array is the
    list of its elements' values. *)
Fixpoint value (r : Response) : QVariant :=
  match r with
  | RNull => QNull
  | RInteger z => QInt z
  | RStatus s | RError s | RBulk s => QBytes s
  | RArray l => QList (map value l)
  end.

(** Modelled from the spec: predicate [isArray]. *)
Definition isArray (r : Response) : bool :=
  match r with RArray _ => true | _ => false end.

(** Modelled from the spec: predicate [isErrorMessage]. *)
Definition isErrorMessage (r : Response) : bool :=
  match r with RError _ => true | _ => false end.

(** Modelled from the spec: [isDisabledCommandErrorMessage], the error
    text matches 'ERR unknown command' or the server-specific
    'command disabled' pattern. *)
Definition isDisabledCommandErrorMessage (r : Response) : bool :=
  match r with
  | RError s =>
      Text.contains "ERR unknown command" s ||
      Text.contains "command disabled" s
  | _ => false
  end.

Definition isBulk (r : Response) : bool :=
  match r with RBulk _ => true | _ => false end.

(** Modelled from the spec: [isValidScanResponse], an array of length 2
    whose first element parses as an unsigned integer cursor and whose
    second element is an array of bulk strings. *)
Definition isValidScanResponse (r : Response) : bool :=
  match r with
  | RArray [c; RArray items] =>
      match Text.toULongLong (Variant.toString (value c)) with
      | Some _ => forallb isBulk items
      | None => false
      end
  | _ => false
  end.

(** Modelled from the spec: accessor [getCursor()], the parsed first
    element of a SCAN reply (and -1 when there is none). *)
Definition getCursor (r : Response) : Z :=
  match r with
  | RArray (c :: _) =>
      default (-1) (Text.toULongLong (Variant.toString (value c)))
  | _ => -1
  end.

(** Modelled from the spec: accessor [getCollection()], the items of the
    second element of a SCAN reply. *)
Definition getCollection (r : Response) : list QVariant :=
  match r with
  | RArray (_ :: items :: _) => Variant.toList (value items)
  | _ => []
  end.

End Resp.

(* ===================================================================== *)
(** ** Command and ScanCommand                                            *)
(* ===================================================================== *)

(** Modelled from the spec: [command.h] is not part of the sources.
  A Command has an ordered list of argument byte-strings, a target
  database index (-1 means: do not issue SELECT) and a hiPriority flag.
  The owner handle only serves
  cancellation and is left out; the completion callback is the
  continuation of the function that submits the command. *)
Record Command : Type := mkCommand {
m_commandWithArguments : list string;
m_dbIndex : Z;
m_hiPriorityCommand : bool
}.

Module Cmd.

(** Modelled from the spec: the default [db = -1] of the [Command]
    constructors and of [Connection::command] (-1 means: do not issue
    SELECT). *)
Definition DEFAULT_DB : Z := -1.

(** [Command(rawCmd, db)] *)
Definition make (rawCmd : list string) (db : Z) : Command :=
  mkCommand rawCmd db false.

(** Modelled from the spec: [isValid], the argument list is non-empty. *)
Definition isValid (c : Command) : bool :=
  match m_commandWithArguments c with [] => false | _ :: _ => true end.

Definition getSplitedRepresentattion (c : Command) : list string :=
  m_commandWithArguments c.

(** [getPartAsString(i)], empty when there is no such part *)
Definition getPartAsString (c : Command) (i : nat) : string :=
  nth i (m_commandWithArguments c) EmptyString.

Definition markAsHiPriorityCommand (c : Command) : Command :=
  mkCommand (m_commandWithArguments c) (m_dbIndex c) true.

End Cmd.

(** A [ScanCommand] is a [Command] with the cursor accessors below. *)
Definition ScanCommand : Type := Command.

Module Scan.

Definition name (c : ScanCommand) : string :=
  Text.toLower (Cmd.getPartAsString c 0).

(** SCAN and ISCAN iterate the key space: their cursor is argument 1. *)
Definition isKeyScan (c : ScanCommand) : bool :=
  String.eqb (name c) "scan" || String.eqb (name c) "iscan".

(** HSCAN, SSCAN and ZSCAN iterate a value: their cursor is argument 2. *)
Definition isValueScan (c : ScanCommand) : bool :=
  String.eqb (name c) "hscan" || String.eqb (name c) "sscan" ||
  String.eqb (name c) "zscan".

Definition cursorPos (c : ScanCommand) : nat :=
  if isKeyScan c then 1%nat else 2%nat.

(** Modelled from the spec: [isValidScanCommand] validates that the
    first argument is one of SCAN, HSCAN, SSCAN, ZSCAN, ISCAN and that
    the cursor is positionally correct (SCAN/ISCAN: arg[1]; others:
    arg[2]). *)
Definition isValidScanCommand (c : ScanCommand) : bool :=
  (isKeyScan c || isValueScan c) &&
  match m_commandWithArguments c !! cursorPos c with
  | Some a => bool_decide (is_Some (Text.toULongLong a))
  | None => false
  end.

(** Modelled from the spec: the [setCursor] mutator writes the cursor at
    its position. *)
Definition setCursor (c : ScanCommand) (cursor : Z) : ScanCommand :=
  mkCommand (<[cursorPos c := Text.number cursor]> (m_commandWithArguments c))
            (m_dbIndex c) (m_hiPriorityCommand c).

(** [ScanCommand(rawCmd)]: the database defaults to -1 (no SELECT). *)
Definition make (rawCmd : list string) : ScanCommand :=
  Cmd.make rawCmd Cmd.DEFAULT_DB.

End Scan.

(* ===================================================================== *)
(** ** Observable actions                                                 *)
(* ===================================================================== *)

(** What a slot or callback of the Connection does, in order.  [U] is the
    type of what the user's callback receives. *)
Inductive Action (U : Type) : Type :=
| AddCommandToWorker (c : Command)        (* emit addCommandToWorker(cmd) *)
| ReconnectTo (host : string) (port : Z)  (* emit reconnectTo(host, port) *)
| EmitError (msg : string)                (* emit error(msg) *)
| User (u : U)                            (* the user's callback runs *)
| Throw (msg : string)                    (* throw Exception(msg) *)
| Abort.                                  (* QList index out of range *)

Arguments AddCommandToWorker {U} c.
Arguments ReconnectTo {U} host port.
Arguments EmitError {U} msg.
Arguments User {U} u.
Arguments Throw {U} msg.
Arguments Abort {U}.

Definition Trace (U : Type) : Type := list (Action U).

(** The payloads handed to the user's callback. *)
Definition userCalls {U} (t : Trace U) : list U :=
  omap (fun a => match a with User u => Some u | _ => None end) t.

(** The commands handed to the transporter. *)
Definition commandsSent {U} (t : Trace U) : list Command :=
  omap (fun a => match a with AddCommandToWorker c => Some c | _ => None end) t.

(** The reconnections requested from the transporter. *)
Definition reconnects {U} (t : Trace U) : list (string * Z) :=
  omap (fun a => match a with ReconnectTo h p => Some (h, p) | _ => None end) t.

(** What the transporter hands to a command's callback: the parsed reply
    and an error text, empty on success. *)
Definition Reply : Type := (Response * string)%type.

(* ===================================================================== *)
(** ** SCAN chains: processScanCommand                                    *)
(* ===================================================================== *)

Definition END_OF_COLLECTION : string := "end_of_collection".

(** Modelled from the spec: [connection.h] is not part of the sources; it
    declares the default of the parameter [incrementalProcessing] of
    [processScanCommand].  [retrieveCollection], the aggregate mode, calls
    [processScanCommand(cmd, callback)] and relies on it. *)
Definition DEFAULT_incrementalProcessing : bool := false.

(** [runCommand] on a Connection that is connected (line 143): the
    validity check, then [emit addCommandToWorker(cmd)]; [k] is what
    happens once the transporter has the command. *)
Definition runCommandConnected {U} (cmd : Command) (k : Trace U) : Trace U :=
  if Cmd.isValid cmd then AddCommandToWorker cmd :: k
  else [Throw "Command is not valid"].

(** The three ways the completion hook of [processScanCommand] ends. *)
Inductive ScanOutcome : Type :=
| Retry (iscanCmd : ScanCommand) (result : list QVariant) (incremental : bool)
    (* line 458: processScanCommand(iscanCmd, callback, result, incrementalProcessing) *)
| Next (newCmd : ScanCommand) (result : list QVariant) (incremental : bool)
    (* line 494: processScanCommand(newCmd, callback, result) *)
| Deliver (c : QVariant) (err : string).
    (* callback(c, err); return *)

(** The body of the completion hook (lines 448-495).  [result] is the
    content of the shared accumulator when the reply arrives. *)
Definition onScanReply (cmd : ScanCommand) (result : list QVariant)
    (incrementalProcessing : bool) (r : Response) (error : string)
  : ScanOutcome :=
  if Resp.isErrorMessage r then
    if String.eqb (Text.toLower (Cmd.getPartAsString cmd 0)) "scan"
       && Resp.isDisabledCommandErrorMessage r
    then
      let rawCmd := <[0%nat := "iscan"]> (Cmd.getSplitedRepresentattion cmd) in
      Retry (Scan.make rawCmd) result incrementalProcessing
    else Deliver (Resp.value r) (Variant.toString (Resp.value r))
  else if negb (Text.isEmpty error) then Deliver QNull error
  else
    let result := if incrementalProcessing then [] else result in
    if negb (Resp.isValidScanResponse r) then
      match result with
      | [] => Deliver QNull
                (if incrementalProcessing then END_OF_COLLECTION else EmptyString)
      | _ :: _ => Deliver (QList result) EmptyString
      end
    else
      let result := result ++ Resp.getCollection r in
      if Resp.getCursor r <=? 0 then
        Deliver (QList result)
          (if incrementalProcessing then END_OF_COLLECTION else EmptyString)
      else
        Next (Scan.setCursor cmd (Resp.getCursor r)) result
             DEFAULT_incrementalProcessing.

(** [processScanCommand(cmd, callback, result, incrementalProcessing)]:
    the command is submitted with the hook above; the hook runs when the
    next reply arrives. *)
Fixpoint processScanCommand {U} (cmd : ScanCommand)
    (callback : QVariant -> string -> Trace U) (result : list QVariant)
    (incrementalProcessing : bool) (replies : list Reply) : Trace U :=
  runCommandConnected cmd
    match replies with
    | [] => []
    | (r, error) :: replies' =>
        match onScanReply cmd result incrementalProcessing r error with
        | Retry cmd' result' incremental'
        | Next cmd' result' incremental' =>
            processScanCommand cmd' callback result' incremental' replies'
        | Deliver c err => callback c err
        end
    end.

(** [throw Exception(msg)] out of an entry point. *)
Record Exception : Type := mkException { what : string }.

Definition Throws (A : Type) : Type := (Exception + A)%type.

(** [retrieveCollection(cmd, callback)] (line 193) *)
Definition retrieveCollection {U} (cmd : ScanCommand)
    (callback : QVariant -> string -> Trace U) (replies : list Reply)
  : Throws (Trace U) :=
  if negb (Scan.isValidScanCommand cmd) then inl (mkException "Invalid command")
  else inr (processScanCommand cmd callback [] DEFAULT_incrementalProcessing
              replies).

(** [retrieveCollectionIncrementally(cmd, callback)] (line 200); the
    callback receives (items, error, isLast). *)
Definition retrieveCollectionIncrementally {U} (cmd : ScanCommand)
    (callback : QVariant -> string -> bool -> Trace U) (replies : list Reply)
  : Throws (Trace U) :=
  if negb (Scan.isValidScanCommand cmd) then inl (mkException "Invalid command")
  else inr (processScanCommand cmd
              (fun c err =>
                 if String.eqb err END_OF_COLLECTION then callback c EmptyString true
                 else if negb (Text.isEmpty err) then callback c err true
                 else callback c EmptyString false)
              [] true replies).

(** The log of a chain: for every reply delivered, the command it answers
    and how the hook ended. *)
Record ScanStep : Type := mkScanStep {
  stepCmd : ScanCommand;
  stepReply : Reply;
  stepOutcome : ScanOutcome
}.

Fixpoint scanLog (cmd : ScanCommand) (result : list QVariant)
    (incrementalProcessing : bool) (replies : list Reply) : list ScanStep :=
  if Cmd.isValid cmd then
    match replies with
    | [] => []
    | (r, error) :: replies' =>
        let o := onScanReply cmd result incrementalProcessing r error in
        mkScanStep cmd (r, error) o ::
        match o with
        | Retry cmd' result' incremental'
        | Next cmd' result' incremental' =>
            scanLog cmd' result' incremental' replies'
        | Deliver _ _ => []
        end
    end
  else [].

(** The user callbacks used to observe a chain. *)
Definition collectionCallback : QVariant -> string -> Trace (QVariant * string) :=
  fun c err => [User (c, err)].

Definition incrementalCallback
  : QVariant -> string -> bool -> Trace (QVariant * string * bool) :=
  fun c err isLast => [User (c, err, isLast)].

(** A well-formed SCAN reply with the given cursor and items. *)
Definition scanReply (cursor : Z) (items : list string) : Reply :=
  (RArray [RBulk (Text.number cursor); RArray (map RBulk items)], EmptyString).

Definition SCAN0 : ScanCommand :=
  Scan.make ["SCAN"; "0"; "MATCH"; "*"; "COUNT"; "100"].


(** A reply that is a well-formed SCAN response, delivered without a
    transport error. *)
Definition validScanReply (rp : Reply) : Prop :=
  Resp.isValidScanResponse rp.1 = true /\ rp.2 = EmptyString.

(** the items of all replies, in reply order *)
Definition batches (replies : list Reply) : list QVariant :=
  concat (map (fun rp : Reply => Resp.getCollection rp.1) replies).

(** The hook ended by replaying the command as ISCAN. *)
Definition isRetry (st : ScanStep) : bool :=
  match stepOutcome st with Retry _ _ _ => true | _ => false end.

(** An error reply that is no disabled-command error. *)
Definition WRONGTYPE : Response :=
  RError "WRONGTYPE Operation against a key holding the wrong kind of value".

(** The error reply of scenario S5. *)
Definition UNKNOWN_SCAN : Response := RError "ERR unknown command 'SCAN'".

(* ===================================================================== *)
(** ** ServerInfo::fromString                                             *)
(* ===================================================================== *)

Module Re.

Definition CR : ascii := "013"%char.
Definition LF : ascii := "010"%char.
Definition CRLF : string := String CR (String LF EmptyString).

(** [QString::split(sep)] for a non-empty separator; [skip] counts the
    characters of a separator still to be dropped. *)
Fixpoint split_go (sep : string) (skip : nat) (acc : string) (s : string)
  : list string :=
  match s with
  | EmptyString => [acc]
  | String c s' =>
      match skip with
      | S k => split_go sep k acc s'
      | O =>
          if String.prefix sep s
          then acc :: split_go sep (String.length sep - 1) EmptyString s'
          else split_go sep O (acc +:+ String c EmptyString) s'
      end
  end.

Definition split (sep s : string) : list string := split_go sep 0 EmptyString s.

(** The longest prefix whose characters satisfy [p], and the rest. *)
Fixpoint span (p : ascii -> bool) (s : string) : string * string :=
  match s with
  | EmptyString => (EmptyString, EmptyString)
  | String c s' =>
      if p c then let '(a, b) := span p s' in (String c a, b)
      else (EmptyString, s)
  end.

(** A literal at the head of [s]; the rest of [s] when it is there.
    [ci] is [Qt::CaseInsensitive]. *)
Fixpoint literal (ci : bool) (lit s : string) : option string :=
  match lit, s with
  | EmptyString, _ => Some s
  | String a lit', String b s' =>
      if (if ci then Ascii.eqb (Text.lower_ascii a) (Text.lower_ascii b)
          else Ascii.eqb a b)
      then literal ci lit' s' else None
  | String _ _, EmptyString => None
  end.

(** [p+] at the head of [s], greedy: the run and the rest. *)
Definition plus (p : ascii -> bool) (s : string) : option (string * string) :=
  match span p s with
  | (EmptyString, _) => None
  | (run, rest) => Some (run, rest)
  end.

(** The leftmost position of [s] where the anchored matcher [m] succeeds
    ([QRegExp::indexIn]). *)
Fixpoint search {A} (m : string -> option A) (s : string) : option A :=
  match m s with
  | Some a => Some a
  | None =>
      match s with
      | EmptyString => None
      | String _ s' => search m s'
      end
  end.

(** [redis_version:([0-9]+\.[0-9]+)], case insensitive, anchored at the
    head of [s]; the text of capture 1.  A greedy run of digits is
    followed by a character that is no digit, so no shorter run matches. *)
Definition versionRegex (s : string) : option string :=
  rest ← literal true "redis_version:" s;
  '(major, rest) ← plus Text.is_digit rest;
  rest ← literal false "." rest;
  '(minor, _) ← plus Text.is_digit rest;
  Some (major +:+ "." +:+ minor).

(** [redis_mode:([a-z]+)], case insensitive, anchored at the head of
    [s]; the text of capture 1. *)
Definition modeRegex (s : string) : option string :=
  rest ← literal true "redis_mode:" s;
  '(mode, _) ← plus Text.is_letter rest;
  Some mode.

(** [^db(\d+):keys=(\d+).*] on one line: captures 1 and 2. *)
Definition getDbAndKeysCount (line : string) : option (string * string) :=
  rest ← literal false "db" line;
  '(db, rest) ← plus Text.is_digit rest;
  rest ← literal false ":keys=" rest;
  '(keys, _) ← plus Text.is_digit rest;
  Some (db, keys).

(** [globalMatch(info)] under [MultilineOption]: the pattern starts with
    [^] and [.] stops before a line feed, so a match begins at the start
    of a line and ends within it; the matches are those of the lines, in
    order. *)
Definition globalMatch (info : string) : list (string * string) :=
  omap getDbAndKeysCount (split (String LF EmptyString) info).

End Re.

(** [ParsedServerInfo]: section -> property -> value *)
Abbreviation ParsedServerInfo := (gmap string (gmap string string)).

(** [DatabaseList], a [QMap<int, int>]: database index -> number of keys *)
Abbreviation DatabaseList := (gmap Z Z).

(** [version] is a [double] read by [toDouble()] from the text captured by
    the version pattern; the record keeps that text ([None]: no match,
    the version is 0.0). *)
Record ServerInfo : Type := mkServerInfo {
  version : option string;
  clusterMode : bool;
  sentinelMode : bool;
  databases : DatabaseList;
  parsed : ParsedServerInfo
}.

Module Info.

(** [QString::indexOf(':')] followed by the two [mid] calls. *)
Fixpoint splitAtColon (line : string) : option (string * string) :=
  match line with
  | EmptyString => None
  | String c rest =>
      if Ascii.eqb c ":" then Some (EmptyString, rest)
      else '(k, v) ← splitAtColon rest; Some (String c k, v)
  end.

(** [line.mid(2)] *)
Definition mid2 (line : string) : string :=
  match line with
  | String _ (String _ rest) => rest
  | _ => EmptyString
  end.

(** The [foreach] over the lines (lines 684-696): the state is the map and
    the current section. *)
Definition parseLine (st : ParsedServerInfo * string) (line : string)
  : ParsedServerInfo * string :=
  let '(parsed, currentSection) := st in
  if String.prefix "#" line then (parsed, Text.toLower (mid2 line))
  else
    match splitAtColon line with
    | None => st
    | Some (k, v) =>
        (<[currentSection := <[k := v]> (default ∅ (parsed !! currentSection))]>
           parsed,
         currentSection)
    end.

Definition parseSections (info : string) : ParsedServerInfo :=
  fst (foldl parseLine (∅, "unknown") (Re.split Re.CRLF info)).

(** The [while (iter.hasNext())] loop (lines 724-728): the keyspace map as
    the INFO text reports it. *)
Definition keyspace (info : string) : DatabaseList :=
  foldl (fun dbs m => <[Text.toInt (fst m) := Text.toInt (snd m)]> dbs)
        ∅ (Re.globalMatch info).

(** [QMap::lastKey()]: the largest key of a map that is not empty. *)
Definition lastKey (dbs : DatabaseList) : option Z :=
  foldr (fun k acc => Some (match acc with Some a => Z.max k a | None => k end))
        None (fst <$> map_to_list dbs).

(** The [for] loop of lines 733-737. *)
Definition fillGaps (dbs : DatabaseList) (lastKnownDbIndex : Z) : DatabaseList :=
  foldl (fun dbs dbIndex =>
           match dbs !! dbIndex with
           | Some _ => dbs
           | None => <[dbIndex := 0]> dbs
           end)
        dbs (seqZ 0 lastKnownDbIndex).

(** [ServerInfo::fromString(info)] (line 676) *)
Definition fromString (info : string) : ServerInfo :=
  let parsed := parseSections info in
  let version := Re.search Re.versionRegex info in
  let mode := Re.search Re.modeRegex info in
  let clusterMode := bool_decide (mode = Some "cluster") in
  let sentinelMode := bool_decide (mode = Some "sentinel") in
  if clusterMode then
    mkServerInfo version clusterMode sentinelMode (<[0 := 0]> ∅) parsed
  else if sentinelMode then
    mkServerInfo version clusterMode sentinelMode ∅ parsed
  else
    let dbs := keyspace info in
    match lastKey dbs with
    | None => mkServerInfo version clusterMode sentinelMode dbs parsed
    | Some lastKnownDbIndex =>
        mkServerInfo version clusterMode sentinelMode
                     (fillGaps dbs lastKnownDbIndex) parsed
    end.

(** [last] is the largest database index that the INFO text reports. *)
Definition largestObserved (info : string) (last : Z) : Prop :=
  is_Some (keyspace info !! last) /\
  forall j, is_Some (keyspace info !! j) -> 0 <= j <= last.

End Info.

Definition INFO_S1 : string :=
  "# server" +:+ Re.CRLF +:+ "redis_version:7.2" +:+ Re.CRLF +:+
  "redis_mode:standalone" +:+ Re.CRLF +:+ "# keyspace" +:+ Re.CRLF +:+
  "db0:keys=3,expires=0" +:+ Re.CRLF +:+ "db2:keys=1,expires=0" +:+ Re.CRLF.

Definition INFO_sentinel : string :=
  "redis_mode:sentinel" +:+ Re.CRLF +:+ "db2:keys=1,expires=0" +:+ Re.CRLF.

Definition INFO_cluster : string :=
  "redis_mode:cluster" +:+ Re.CRLF +:+ "db2:keys=1,expires=0" +:+ Re.CRLF.

(* ===================================================================== *)
(** ** Connection: configuration, mode, authentication                    *)
(* ===================================================================== *)

(** Modelled from the spec: [connectionconfig.h] is not part of the
    sources.  The password is optional ([useAuth] tells whether there is
    one); [isValid] requires a non-empty host and a port in 1..65535. *)
Record ConnectionConfig : Type := mkConfig {
  host : string;
  port : Z;
  authPassword : option string;
  useSshTunnel : bool;
  overrideClusterHost : bool
}.

Module Config.

Definition useAuth (c : ConnectionConfig) : bool :=
  bool_decide (is_Some (authPassword c)).

Definition auth (c : ConnectionConfig) : string :=
  default EmptyString (authPassword c).

Definition isValid (c : ConnectionConfig) : bool :=
  negb (Text.isEmpty (host c)) && (1 <=? port c) && (port c <=? 65535).

End Config.

Inductive Mode : Type := Normal | Cluster | Sentinel.

#[global] Instance Mode_eq_dec : EqDecision Mode.
Proof. solve_decision. Defined.

(** The signals of the Connection that [auth] emits. *)
Inductive Signal : Type :=
| sig_log (msg : string)
| sig_authOk
| sig_authError (msg : string)
| sig_error (msg : string)
| sig_connected
| sig_reconnectTo (host : string) (port : Z).

#[global] Instance Signal_eq_dec : EqDecision Signal.
Proof. solve_decision. Defined.

(** [internalCommandSync(rawCmd)] (line 431) blocks for the reply of a
    hi-priority command, or throws what [runCommand] throws.  The server
    and the transporter are the function that answers it. *)
Definition SyncServer : Type := list string -> Throws Response.

Definition SENTINEL_INVALID : string :=
  "Connection error: invalid response from sentinel".

Definition SENTINEL_NO_MASTER : string :=
  "Connection error: cannot retrive master node from sentinel".

Definition AUTH_REQUIRED : string :=
  "Redis server requires password or password is not valid".

(** The [catch] clause of [auth] (lines 655-658), after the signals [sigs]
    were emitted. *)
Definition authCatch (sigs : list Signal) (e : Exception) : list Signal :=
  sigs ++ [sig_error ("Connection error on AUTH: " +:+ what e);
           sig_authError "Connection error on AUTH"].

(** The sentinel branch of [auth] (lines 620-649), after the signals
    [sigs] were emitted. *)
Definition authSentinel (cfg : ConnectionConfig) (server : SyncServer)
    (sigs : list Signal) : list Signal :=
  match server ["SENTINEL"; "masters"] with
  | inl e => authCatch sigs e
  | inr mastersResult =>
      if negb (Resp.isArray mastersResult) then sigs ++ [sig_error SENTINEL_NO_MASTER]
      else
        match Variant.toList (Resp.value mastersResult) with
        | [] => sigs ++ [sig_error SENTINEL_INVALID]
        | first :: _ =>
            let masterInfo := Variant.toStringList first in
            if (length masterInfo <? 6)%nat then sigs ++ [sig_error SENTINEL_INVALID]
            else
              let host0 := nth 3 masterInfo EmptyString in
              let host1 :=
                if negb (useSshTunnel cfg) &&
                   (String.eqb host0 "127.0.0.1" || String.eqb host0 "localhost")
                then host cfg else host0 in
              sigs ++ [sig_reconnectTo host1 (Text.toInt (nth 5 masterInfo EmptyString))]
        end
  end.

(** [auth()] (line 594): the signals emitted, in order, and the new values
    of [m_currentMode] and [m_serverInfo]. *)
Definition auth (cfg : ConnectionConfig) (server : SyncServer)
    (m_currentMode : Mode) (m_serverInfo : ServerInfo)
  : list Signal * Mode * ServerInfo :=
  let sigs := [sig_log "AUTH"] in
  match (if Config.useAuth cfg then server ["AUTH"; Config.auth cfg]
         else inr RNull) with
  | inl e => (authCatch sigs e, m_currentMode, m_serverInfo)
  | inr _ =>
      match server ["PING"] with
      | inl e => (authCatch sigs e, m_currentMode, m_serverInfo)
      | inr testResult =>
          if negb (String.eqb (Variant.toByteArray (Resp.value testResult)) "PONG")
          then (sigs ++ [sig_authError AUTH_REQUIRED; sig_error "AUTH ERROR"],
                m_currentMode, m_serverInfo)
          else
            (* refreshServerInfo() *)
            match server ["INFO"; "ALL"] with
            | inl e => (authCatch sigs e, m_currentMode, m_serverInfo)
            | inr infoResult =>
                let m_serverInfo :=
                  Info.fromString (Variant.toString (Resp.value infoResult)) in
                if clusterMode m_serverInfo then
                  (sigs ++ [sig_log "Cluster detected"; sig_log "Connected"; sig_authOk;
                            sig_connected],
                   Cluster, m_serverInfo)
                else if sentinelMode m_serverInfo then
                  (authSentinel cfg server
                     (sigs ++ [sig_log "Sentinel detected. Requesting master node..."]),
                   Sentinel, m_serverInfo)
                else
                  (sigs ++ [sig_log "Connected"; sig_authOk; sig_connected],
                   m_currentMode, m_serverInfo)
            end
      end
  end.

Definition noServerInfo : ServerInfo := mkServerInfo None false false ∅ ∅.

(** The signals of one run of [auth] on a fresh Connection. *)
Definition authSignals (cfg : ConnectionConfig) (server : SyncServer)
  : list Signal :=
  (auth cfg server Normal noServerInfo).1.1.

(** A sentinel answering as in scenarios S2 and S3 of the specification. *)
Definition sentinelServer (ip : string) : SyncServer :=
  fun rawCmd =>
    match rawCmd with
    | ["PING"] => inr (RStatus "PONG")
    | ["INFO"; "ALL"] => inr (RBulk INFO_sentinel)
    | ["SENTINEL"; "masters"] =>
        inr (RArray [RArray (map RBulk ["name"; "mymaster"; "ip"; ip;
                                          "port"; "6380"; "runid"; "x"])])
    | _ => inr (RStatus "OK")
    end.

Definition cfgExample : ConnectionConfig :=
  mkConfig "db.example.com" 26379 None false true.

(* ===================================================================== *)
(** ** Cluster-wide operations                                            *)
(* ===================================================================== *)

(** [Host], a [QPair<QString, int>], and [HostList] *)
Abbreviation Host := (string * Z)%type.
Abbreviation HostList := (list (string * Z)).

(** The [foreach] of [getMasterNodes] (lines 564-572).  [None]: an index
    of [masterDetails] is out of range. *)
Fixpoint mastersOfSlots (slotsList : list QVariant) : option HostList :=
  match slotsList with
  | [] => Some []
  | clusterSlot :: more =>
      let details := Variant.toList clusterSlot in
      if (length details <? 3)%nat then mastersOfSlots more
      else
        match Variant.toList (nth 2 details QNull) with
        | h :: p :: _ =>
            cons (Variant.toString h, Variant.toInt p) <$> mastersOfSlots more
        | _ => None
        end
  end.

(** [getMasterNodes()] (line 546): the texts given to [emit error] and the
    list returned; [None] when the function aborts on an index. *)
Definition getMasterNodes (mode : Mode) (server : SyncServer)
  : option (list string * HostList) :=
  if bool_decide (mode <> Cluster) then Some ([], [])
  else
    match server ["CLUSTER"; "SLOTS"] with
    | inl e => Some (["Cannot retrive nodes list"], [])
    | inr r => pair [] <$> mastersOfSlots (Variant.toList (Resp.value r))
    end.

(** [Connection::command(rawCmd, owner, callback, db)] (line 116) on a
    connected Connection: [runCommand], whose exception is rethrown. *)
Definition command {U} (rawCmd : list string) (db : Z) (k : Trace U) : Trace U :=
  let cmd := Cmd.make rawCmd db in
  if Cmd.isValid cmd then AddCommandToWorker cmd :: k
  else [Throw ("Cannot execute command." +:+ "Command is not valid")].

(** The Connection as [runCommand] finds it.  With [m_autoConnect] on and
    no running transporter, [connect(false)] either throws or starts the
    connect sequence; the hook that [runCommand] registered then receives
    a text (empty after [authOk]) and, when the text is empty, runs
    [runCommand] again on the Connection as it is by then.  [None]: the
    hook has not run. *)
#[local] Unset Elimination Schemes.
Inductive Link : Type :=
| Linked      (* isConnected() *)
| Unlinked    (* !isConnected() && !m_autoConnect *)
| AutoLink (started : Throws (option (string * Link))).
              (* !isConnected() && m_autoConnect *)
#[local] Set Elimination Schemes.

(** [runCommand(cmd)] (line 143) for a command whose reply leads to [k].
    An exception thrown inside the hook is not caught by the caller. *)
Fixpoint runVia {U} (link : Link) (cmd : Command) (k : Trace U)
  : Throws (Trace U) :=
  if negb (Cmd.isValid cmd) then inl (mkException "Command is not valid")
  else
    match link with
    | Linked => inr (AddCommandToWorker cmd :: k)
    | Unlinked => inl (mkException "Try run command in not connected state")
    | AutoLink (inl e) => inl e
    | AutoLink (inr None) => inr []
    | AutoLink (inr (Some (err, after))) =>
        if Text.isEmpty err then
          (* d->complete(runCommand(cmd)) *)
          match runVia after cmd k with
          | inl e => inr [Throw (what e)]
          | inr t => inr t
          end
        else (* d->cancel() *) inr []
    end.

(** [Connection::command(rawCmd, owner, callback, db)] (line 116) *)
Definition commandVia {U} (link : Link) (rawCmd : list string) (db : Z)
    (k : Trace U) : Throws (Trace U) :=
  match runVia link (Cmd.make rawCmd db) k with
  | inl e => inl (mkException ("Cannot execute command." +:+ what e))
  | inr t => inr t
  end.

(** What happens at one master once the Connection asked the transporter
    to go there: [connectError] is what the hook of [callAfterConnect]
    receives (empty after [authOk], the text of [error] otherwise), and
    [nodeReplies] are the replies of that node to the commands sent to
    it. *)
Record NodeVisit : Type := mkVisit {
  connectError : string;
  nodeReplies : list Reply
}.

(** [convertQVariantList] of [utils/compat.h] *)
Definition convertQVariantList (l : list QVariant) : list string :=
  map Variant.toByteArray l.

Section ClusterOperations.

Context {U : Type}.
Variable m_config : ConnectionConfig.

(** The defaults of [dbIndex] and [scanLimit] in the declaration of
    [getDatabaseKeys]; [connection.h] is not part of the sources. *)
Variables (DEFAULT_keysDbIndex DEFAULT_scanLimit : Z).

(** The default of [db] in the declaration of
    [command(rawCmd, owner, callback, db)], likewise. *)
Variable DEFAULT_commandDb : Z.

(** [tr(..%1:%2).arg(m_config.host()).arg(m_config.port())] (lines
    260-262 and 292-294) *)
Definition cannotConnect : string :=
  Text.argInt
    (Text.arg "Cannot connect to cluster node %1:%2" (host m_config))
    (port m_config).

(** [tr(..(%1): %2).arg(dbIndex).arg(error)] (lines 303-305 and
    321-323) *)
Definition cannotFlush (dbIndex : Z) (err : string) : string :=
  Text.arg (Text.argInt "Cannot flush db (%1): %2" dbIndex) err.

(** [clusterConnectToNextMasterNode(callback)] (line 509).  [callback]
    also receives what is left of [m_notVisitedMasterNodes]; [hook] is
    what the hook registered by [callAfterConnect] receives, [None] while
    neither [authOk] nor [error] has been emitted. *)
Definition clusterConnectToNextMasterNode (m_notVisitedMasterNodes : HostList)
    (callback : HostList -> string -> Trace U) (hook : option string)
  : Trace U :=
  match m_notVisitedMasterNodes with
  | [] => []
  | h :: rest =>
      (if overrideClusterHost m_config then ReconnectTo h.1 h.2
       else ReconnectTo (host m_config) h.2)
      :: match hook with
         | None => []
         | Some err => callback rest err
         end
  end.

(** [getDatabaseKeys(callback, pattern, dbIndex, scanLimit)] (line 332) *)
Definition getDatabaseKeys (callback : list string -> string -> Trace U)
    (pattern : string) (dbIndex scanLimit : Z) (replies : list Reply)
  : Trace U :=
  let rawCmd := ["scan"; "0"; "MATCH"; pattern; "COUNT"; Text.number scanLimit] in
  let keyCmd := Cmd.make rawCmd dbIndex in
  match retrieveCollection keyCmd
          (fun r err =>
             if negb (Text.isEmpty err)
             then callback [] ("Cannot load keys: " +:+ err)
             else callback (convertQVariantList (Variant.toList r)) EmptyString)
          replies
  with
  | inl e => [Throw (what e)]
  | inr t => t
  end.

(** The traversal of [getClusterKeys] (lines 257-281): [onConnect] and
    [m_collectClusterNodeKeys]; [result] is the shared list of keys. *)
Fixpoint collectMasters (callback : list string -> string -> Trace U)
    (pattern : string) (result : list string)
    (m_notVisitedMasterNodes : HostList) (visits : list NodeVisit) : Trace U :=
  match visits with
  | [] => clusterConnectToNextMasterNode m_notVisitedMasterNodes
            (fun _ _ => []) None
  | v :: visits' =>
      clusterConnectToNextMasterNode m_notVisitedMasterNodes
        (fun rest err =>
           (* onConnect *)
           if negb (Text.isEmpty err) then callback result cannotConnect
           else
             getDatabaseKeys
               (fun res err =>
                  (* m_collectClusterNodeKeys *)
                  if negb (Text.isEmpty err) then callback [] err
                  else
                    let result := result ++ res in
                    match rest with
                    | [] => callback result EmptyString
                    | _ :: _ =>
                        collectMasters callback pattern result rest visits'
                    end)
               pattern DEFAULT_keysDbIndex DEFAULT_scanLimit (nodeReplies v))
        (Some (connectError v))
  end.

(** [getClusterKeys(callback, pattern)] (line 247) *)
Definition getClusterKeys (mode : Mode) (server : SyncServer)
    (callback : list string -> string -> Trace U) (pattern : string)
    (visits : list NodeVisit) : Throws (Trace U) :=
  if bool_decide (mode <> Cluster)
  then inl (mkException "Connection is not in cluster mode")
  else
    match getMasterNodes mode server with
    | None => inr [Abort]
    | Some (errs, nodes) =>
        inr (map EmitError errs ++ collectMasters callback pattern [] nodes visits)
    end.

(** The traversal of the cluster branch of [flushDbKeys] (lines 290-314):
    [onConnect] and [m_cmdCallback]. *)
Fixpoint flushMasters (dbIndex : Z) (callback : string -> Trace U)
    (m_notVisitedMasterNodes : HostList) (visits : list NodeVisit) : Trace U :=
  match visits with
  | [] => clusterConnectToNextMasterNode m_notVisitedMasterNodes
            (fun _ _ => []) None
  | v :: visits' =>
      clusterConnectToNextMasterNode m_notVisitedMasterNodes
        (fun rest err =>
           (* onConnect *)
           if negb (Text.isEmpty err) then callback cannotConnect
           else
             (* line 297: command({"FLUSHDB"}, this, m_cmdCallback) *)
             command ["FLUSHDB"] DEFAULT_commandDb
               match nodeReplies v with
               | [] => []
               | (_, error) :: _ =>
                   (* m_cmdCallback *)
                   if negb (Text.isEmpty error)
                   then callback (cannotFlush dbIndex error)
                   else
                     match rest with
                     | [] => callback EmptyString
                     | _ :: _ => flushMasters dbIndex callback rest visits'
                     end
               end)
        (Some (connectError v))
  end.

(** [flushDbKeys(dbIndex, callback)] (line 284).  [visits] is what happens
    at the masters in cluster mode; [link] is the Connection as the single
    command of the other modes finds it, and [reply] the reply to that
    command ([None]: not arrived). *)
Definition flushDbKeys (mode : Mode) (server : SyncServer) (dbIndex : Z)
    (callback : string -> Trace U) (visits : list NodeVisit)
    (reply : option Reply) (link : Link) : Throws (Trace U) :=
  if bool_decide (mode = Cluster) then
    match getMasterNodes mode server with
    | None => inr [Abort]
    | Some (errs, nodes) =>
        inr (map EmitError errs ++ flushMasters dbIndex callback nodes visits)
    end
  else
    (* line 316: command({"FLUSHDB"}, this, [..](..){..}, dbIndex) *)
    commandVia link ["FLUSHDB"] dbIndex
      match reply with
      | None => []
      | Some (_, error) =>
          if negb (Text.isEmpty error)
          then callback (cannotFlush dbIndex error)
          else callback EmptyString
      end.

End ClusterOperations.

(** User callbacks used to observe the cluster operations. *)
Definition keysCallback : list string -> string -> Trace (list string * string) :=
  fun keys err => [User (keys, err)].

Definition flushCallback : string -> Trace string :=
  fun err => [User err].

(** [CLUSTER SLOTS] answering with the given masters, one slot range each. *)
Definition slotsReply (masters : HostList) : Response :=
  RArray (map (fun h : string * Z =>
                 RArray [RInteger 0; RInteger 5460;
                         RArray [RBulk h.1; RInteger h.2; RBulk "id"]])
              masters).

Definition clusterServer (slots : Throws Response) : SyncServer :=
  fun rawCmd =>
    match rawCmd with
    | ["CLUSTER"; "SLOTS"] => slots
    | _ => inr (RStatus "OK")
    end.

Definition threeMasters : HostList :=
  [("10.0.0.1", 7000); ("10.0.0.2", 7001); ("10.0.0.3", 7002)].

Definition okVisit : NodeVisit := mkVisit EmptyString [(RStatus "OK", EmptyString)].

(* ===================================================================== *)
(** ** Deferred dispatch: runCommand, connect, callAfterConnect           *)
(* ===================================================================== *)

Module Dispatch.

(** A [QFuture<Response>] is either the future of a command's own promise
    or the future of a [Deferred] created by [runCommand]. *)
Inductive Future : Type :=
| CommandFuture (cmd : Command)
| DeferredFuture (d : nat).

(** The state of an [AsyncFuture::Deferred<Response>]:
    [d->complete(future)] makes it follow that future, [d->cancel()]
    cancels it. *)
Inductive Deferred : Type :=
| Pending
| CompletedWith (f : Future)
| Cancelled.

(** The closure [this, cmd, d] that [runCommand] gives to
    [callAfterConnect] (line 152). *)
Inductive Hook : Type := RunAfterConnect (cmd : Command) (d : nat).

Record Connection : Type := mkConnection {
  m_config : ConnectionConfig;
  m_dbNumber : Z;
  m_currentMode : Mode;
  m_autoConnect : bool;
  m_stoppingTransporter : bool;
  m_serverInfo : ServerInfo;
  transporterRunning : bool;      (* isTransporterRunning() *)
  contexts : list Hook;           (* live contexts of callAfterConnect *)
  deferreds : list Deferred;      (* the Deferred objects, by creation *)
  worker : list Command;          (* commands given to addCommandToWorker *)
  uncaught : list Exception       (* exceptions that left a slot *)
}.

(** [Connection(c, autoConnect)] (line 22) *)
Definition newConnection (c : ConnectionConfig) (autoConnect : bool)
  : Connection :=
  mkConnection c 0 Normal autoConnect false noServerInfo false [] [] [] [].

(** [isConnected()] (line 79) *)
Definition isConnected (c : Connection) : bool :=
  negb (m_stoppingTransporter c) && transporterRunning c.

Definition withRunning (b : bool) (c : Connection) : Connection :=
  mkConnection (m_config c) (m_dbNumber c) (m_currentMode c) (m_autoConnect c)
    (m_stoppingTransporter c) (m_serverInfo c) b (contexts c) (deferreds c)
    (worker c) (uncaught c).

Definition withDbNumber (n : Z) (c : Connection) : Connection :=
  mkConnection (m_config c) n (m_currentMode c) (m_autoConnect c)
    (m_stoppingTransporter c) (m_serverInfo c) (transporterRunning c)
    (contexts c) (deferreds c) (worker c) (uncaught c).

Definition withContexts (l : list Hook) (c : Connection) : Connection :=
  mkConnection (m_config c) (m_dbNumber c) (m_currentMode c) (m_autoConnect c)
    (m_stoppingTransporter c) (m_serverInfo c) (transporterRunning c)
    l (deferreds c) (worker c) (uncaught c).

Definition withDeferreds (l : list Deferred) (c : Connection) : Connection :=
  mkConnection (m_config c) (m_dbNumber c) (m_currentMode c) (m_autoConnect c)
    (m_stoppingTransporter c) (m_serverInfo c) (transporterRunning c)
    (contexts c) l (worker c) (uncaught c).

Definition withWorker (l : list Command) (c : Connection) : Connection :=
  mkConnection (m_config c) (m_dbNumber c) (m_currentMode c) (m_autoConnect c)
    (m_stoppingTransporter c) (m_serverInfo c) (transporterRunning c)
    (contexts c) (deferreds c) l (uncaught c).

Definition withUncaught (l : list Exception) (c : Connection) : Connection :=
  mkConnection (m_config c) (m_dbNumber c) (m_currentMode c) (m_autoConnect c)
    (m_stoppingTransporter c) (m_serverInfo c) (transporterRunning c)
    (contexts c) (deferreds c) (worker c) l.

Definition withAuth (m : Mode) (i : ServerInfo) (c : Connection) : Connection :=
  mkConnection (m_config c) (m_dbNumber c) m (m_autoConnect c)
    (m_stoppingTransporter c) i (transporterRunning c)
    (contexts c) (deferreds c) (worker c) (uncaught c).

Section Build.

(** The build option [SSH_SUPPORT]. *)
Variable SSH_SUPPORT : bool.

(** [connect(false)] (line 35): the transporter thread is started and the
    call returns; [auth] runs when the transporter reports [connected]. *)
Definition connect (c : Connection) : Throws Connection :=
  if isConnected c then inr c
  else if negb (Config.isValid (m_config c))
  then inl (mkException "Invalid config detected")
  else if useSshTunnel (m_config c) && negb SSH_SUPPORT
  then inl (mkException "QRedisClient compiled without ssh support.")
  else inr (withRunning true c).

(** [disconnect()] (line 83) *)
Definition disconnect (c : Connection) : Connection :=
  withDbNumber 0 (withRunning false c).

(** [callAfterConnect(callback)] (line 531): a context that lives until
    [authOk] or [error] is emitted. *)
Definition callAfterConnect (h : Hook) (c : Connection) : Connection :=
  withContexts (contexts c ++ [h]) c.

(** [runCommand(cmd)] (line 143): the future returned, or the exception,
    and the Connection afterwards. *)
Definition runCommand (cmd : Command) (c : Connection)
  : Throws Future * Connection :=
  if negb (Cmd.isValid cmd) then (inl (mkException "Command is not valid"), c)
  else if negb (isConnected c) then
    if m_autoConnect c then
      let d := length (deferreds c) in
      let c := withDeferreds (deferreds c ++ [Pending]) c in
      let c := callAfterConnect (RunAfterConnect cmd d) c in
      match connect c with
      | inl e => (inl e, c)
      | inr c => (inr (DeferredFuture d), c)
      end
    else (inl (mkException "Try run command in not connected state"), c)
  else (inr (CommandFuture cmd), withWorker (worker c ++ [cmd]) c).

(** The body of the closure of line 152, called with [err]. *)
Definition runHook (c : Connection) (h : Hook) (err : string) : Connection :=
  match h with
  | RunAfterConnect cmd d =>
      if Text.isEmpty err then
        match runCommand cmd c with
        | (inr f, c) => withDeferreds (<[d := CompletedWith f]> (deferreds c)) c
        | (inl e, c) => withUncaught (uncaught c ++ [e]) c
        end
      else withDeferreds (<[d := Cancelled]> (deferreds c)) c
  end.

(** The slots that run when the Connection emits a signal: the contexts
    of [callAfterConnect] on [authOk] and [error] (each runs its closure
    and is deleted), [disconnect] on [authError] (line 61). *)
Definition emit (c : Connection) (s : Signal) : Connection :=
  match s with
  | sig_authOk =>
      foldl (fun c h => runHook c h EmptyString) (withContexts [] c) (contexts c)
  | sig_error err =>
      foldl (fun c h => runHook c h err) (withContexts [] c) (contexts c)
  | sig_authError _ => disconnect c
  | _ => c
  end.

(** The transporter reports [connected]: the slot [auth] runs (line 54). *)
Definition onConnected (server : SyncServer) (c : Connection) : Connection :=
  let '(sigs, mode, info) :=
    auth (m_config c) server (m_currentMode c) (m_serverInfo c) in
  foldl emit (withAuth mode info c) sigs.

(** The transporter reports [errorOccurred(err)] (line 56). *)
Definition onErrorOccurred (err : string) (c : Connection) : Connection :=
  emit (disconnect c) (sig_error ("Disconnect on error: " +:+ err)).

End Build.

End Dispatch.

(** A standalone server answering as in scenario S1. *)
Definition standaloneServer : SyncServer :=
  fun rawCmd =>
    match rawCmd with
    | ["PING"] => inr (RStatus "PONG")
    | ["INFO"; "ALL"] => inr (RBulk INFO_S1)
    | _ => inr (RStatus "OK")
    end.

Definition GET_foo : Command := Cmd.make ["GET"; "foo"] 0.

(** ** Observations used in the statements *)

(** An action without what the user's callback receives. *)
Definition forgetText {U} (a : Action U) : Action unit :=
  match a with
  | AddCommandToWorker c => AddCommandToWorker c
  | ReconnectTo h p => ReconnectTo h p
  | EmitError msg => EmitError msg
  | User _ => User tt
  | Throw msg => Throw msg
  | Abort => Abort
  end.

(** FLUSHDB as [flushDbKeys] builds it, for the database [db]. *)
Definition flushCommand (db : Z) : Command := mkCommand ["FLUSHDB"] db false.

(** The command that the cluster branch of [flushDbKeys] sends when the
    default database of [command] is -1, the index for which no database
    is selected. *)
Definition bareFLUSHDB : Command := flushCommand (-1).

(** One run of [auth] ended with [authOk]. *)
Definition succeeded (sigs : list Signal) : bool :=
  existsb (fun s => match s with sig_authOk => true | _ => false end) sigs.

(** One run of [auth] ended by sending the transporter to another host. *)
Definition redirected (sigs : list Signal) : bool :=
  existsb (fun s => match s with sig_reconnectTo _ _ => true | _ => false end)
          sigs.

(** The Connection after [runCommand] deferred [cmd]: the transporter
    thread runs, the closure of [cmd] waits for [authOk] or [error], and
    the Deferred is pending. *)
Definition waiting (cfg : ConnectionConfig) (cmd : Command)
    (c : Dispatch.Connection) : Prop :=
  Dispatch.m_config c = cfg /\
  Dispatch.m_stoppingTransporter c = false /\
  Dispatch.transporterRunning c = true /\
  Dispatch.contexts c = [Dispatch.RunAfterConnect cmd 0] /\
  Dispatch.deferreds c = [Dispatch.Pending] /\
  Dispatch.worker c = [].

(** The transporter reports [connected] once per server of the list: the
    sentinels that redirect it, in order. *)
Definition connectSequence (ssh : bool) (servers : list SyncServer)
    (c : Dispatch.Connection) : Dispatch.Connection :=
  foldl (fun c s => Dispatch.onConnected ssh s c) c servers.

(** Where [clusterConnectToNextMasterNode] sends the transporter for the
    master [h]. *)
Definition nodeTarget (cfg : ConnectionConfig) (h : string * Z) : string * Z :=
  if overrideClusterHost cfg then (h.1, h.2) else (host cfg, h.2).

(** A text without a percent sign, hence without a place marker of
    [QString::arg]. *)
Fixpoint percentFree (s : string) : bool :=
  match s with
  | EmptyString => true
  | String c r => negb (Ascii.eqb c "%") && percentFree r
  end.

(** The texts that the callback of [flushDbKeys] can receive. *)
Definition flushReport (cfg : ConnectionConfig) (dbIndex : Z) (msg : string)
  : Prop :=
  msg = EmptyString \/ msg = cannotConnect cfg \/
  exists err, msg = cannotFlush dbIndex err.

(** Two traces of the cluster branch of [flushDbKeys], run with dbIndex
    and with another index: the commands are FLUSHDB for the default
    database [dflt] of [command], the actions agree but for the text
    handed to the callback, and that text is one of the three reports. *)
Definition flushAgree (cfg : ConnectionConfig) (dflt dbIndex : Z)
    (t t' : Trace string) : Prop :=
  Forall (fun c => c = flushCommand dflt) (commandsSent t) /\
  map forgetText t = map forgetText t' /\
  Forall (flushReport cfg dbIndex) (userCalls t).

(* ===================================================================== *)
(** ** Further observations                                               *)
(* ===================================================================== *)

(** The ways a trace of [processScanCommand] can end after the commands
    [sent]: still waiting for a reply, in the callback, or in the
    exception of [runCommand]. *)
Definition chainShape {U} (callback : QVariant -> string -> Trace U)
    (t : Trace U) (sent : list Command) : Prop :=
  t = map AddCommandToWorker sent \/
  (exists c err, t = map AddCommandToWorker sent ++ callback c err) \/
  t = map AddCommandToWorker sent ++ [Throw "Command is not valid"].

(** A first reply that ends a chain with a failure: an error reply that
    does not lead to the ISCAN replay, or a transport error. *)
Definition failedReply (cmd : ScanCommand) (rp : Reply) : Prop :=
  (Resp.isErrorMessage rp.1 = true /\
   String.eqb (Scan.name cmd) "scan" && Resp.isDisabledCommandErrorMessage rp.1
     = false /\
   Variant.toString (Resp.value rp.1) <> EmptyString) \/
  (Resp.isErrorMessage rp.1 = false /\ rp.2 <> EmptyString).

(** A reply that is neither an error nor a SCAN response, delivered
    without a transport error. *)
Definition malformedReply (rp : Reply) : Prop :=
  Resp.isErrorMessage rp.1 = false /\ Resp.isValidScanResponse rp.1 = false /\
  rp.2 = EmptyString.

(** The replies of a chain that runs to cursor 0. *)
Definition completeChain (replies : list Reply) : Prop :=
  exists pre last,
    replies = pre ++ [last] /\
    Forall (fun rp => validScanReply rp /\ Resp.getCursor rp.1 <> 0) pre /\
    validScanReply last /\ Resp.getCursor last.1 = 0.

Definition HSCAN0 : ScanCommand :=
  Cmd.make ["HSCAN"; "key"; "0"; "COUNT"; "10"] 2.

(** The signals that the hooks of [callAfterConnect] and the transporter
    act upon: [authOk], [error] and [reconnectTo]. *)
Definition notifies (s : Signal) : bool :=
  match s with
  | sig_authOk | sig_error _ | sig_reconnectTo _ _ => true
  | _ => false
  end.

(** A reply to SENTINEL masters that names no usable master: no array,
    an empty array, or a first entry with fewer than 6 fields. *)
Definition noMaster (mastersResult : Response) : bool :=
  negb (Resp.isArray mastersResult) ||
  match Variant.toList (Resp.value mastersResult) with
  | [] => true
  | first :: _ => (length (Variant.toStringList first) <? 6)%nat
  end.

(** An entry of CLUSTER SLOTS with at least the three fields read. *)
Definition longSlot (clusterSlot : QVariant) : bool :=
  (3 <=? length (Variant.toList clusterSlot))%nat.

(** [details[2].toList()] *)
Definition masterDetails (clusterSlot : QVariant) : list QVariant :=
  Variant.toList (nth 2 (Variant.toList clusterSlot) QNull).

(** The host and port read from an entry. *)
Definition masterOf (clusterSlot : QVariant) : string * Z :=
  (Variant.toString (nth 0 (masterDetails clusterSlot) QNull),
   Variant.toInt (nth 1 (masterDetails clusterSlot) QNull)).

Definition slotEntry (h : string) (p : Z) : QVariant :=
  QList [QInt 0; QInt 5460; QList [QBytes h; QInt p; QBytes "id"]].

(** A visit where the master is reached and answers the first command
    without a transport error. *)
Definition visitOk (v : NodeVisit) : Prop :=
  connectError v = EmptyString /\
  exists r more, nodeReplies v = (r, EmptyString) :: more.

(** A visit where the master is not reached, or where the first command
    ends with a transport error. *)
Definition visitFails (v : NodeVisit) : Prop :=
  connectError v <> EmptyString \/
  exists r err more, nodeReplies v = (r, err) :: more /\ err <> EmptyString.

(** What [flushDbKeys] does at a master that is reached and flushed,
    [dflt] being the default database of [command]. *)
Definition flushedTrace (cfg : ConnectionConfig) (dflt : Z) (h : string * Z)
  : Trace string :=
  [ReconnectTo (nodeTarget cfg h).1 (nodeTarget cfg h).2;
   AddCommandToWorker (flushCommand dflt)].

(** What [flushDbKeys] does at the master where the visit fails. *)
Definition flushFailureTrace (cfg : ConnectionConfig) (dflt dbIndex : Z)
    (h : string * Z) (v : NodeVisit) : Trace string :=
  ReconnectTo (nodeTarget cfg h).1 (nodeTarget cfg h).2 ::
  if Text.isEmpty (connectError v)
  then [AddCommandToWorker (flushCommand dflt);
        User (cannotFlush dbIndex
                (match nodeReplies v with
                 | (_, err) :: _ => err
                 | [] => EmptyString
                 end))]
  else [User (cannotConnect cfg)].

(** The keys that the SCAN chain of a visit collects. *)
Definition nodeKeys (v : NodeVisit) : list string :=
  convertQVariantList (batches (nodeReplies v)).

Definition cfgTunnel : ConnectionConfig :=
  mkConfig "tunnel.example.com" 7000 None true false.

Definition keysVisit (cursor : Z) (first second : list string) : NodeVisit :=
  mkVisit EmptyString [scanReply cursor first; scanReply 0 second].




(** The commands of a list are issued one after the other. *)
Definition runAll (ssh : bool) (cmds : list Command) (c : Dispatch.Connection)
  : Dispatch.Connection :=
  foldl (fun c cmd => (Dispatch.runCommand ssh cmd c).2) c cmds.

(** The index of the Deferred that a hook completes or cancels. *)
Definition hookDeferred (h : Dispatch.Hook) : nat :=
  match h with Dispatch.RunAfterConnect _ d => d end.

Definition SET_bar : Command := Cmd.make ["SET"; "bar"; "1"] 0.

Definition cfgInvalid : ConnectionConfig := mkConfig EmptyString 6379 None false true.

(* ===================================================================== *)
(** * Properties                                                          *)
(* ===================================================================== *)

(** ** The scenarios of the specification, run on the embedding *)

(** S1: the keyspace of a standalone server, gaps filled with 0. *)
Example S1_databases :
  map_to_list (databases (Info.fromString INFO_S1)) = [(2, 1); (1, 0); (0, 3)] /\
  version (Info.fromString INFO_S1) = Some "7.2" /\
  succeeded (authSignals cfgExample standaloneServer) = true.
Proof. repeat split; reflexivity. Qed.

(** S2: a sentinel naming a master elsewhere. *)
Example S2_sentinel_redirect :
  authSignals cfgExample (sentinelServer "10.0.0.5") =
  [sig_log "AUTH"; sig_log "Sentinel detected. Requesting master node...";
   sig_reconnectTo "10.0.0.5" 6380].
Proof. reflexivity. Qed.

(** S4: two replies, one callback with all items. *)
Example S4_scan_aggregate :
  retrieveCollection SCAN0 collectionCallback
    [scanReply 48 ["a"; "b"]; scanReply 0 ["c"]] =
  inr [AddCommandToWorker SCAN0;
       AddCommandToWorker (Scan.make ["SCAN"; "48"; "MATCH"; "*"; "COUNT"; "100"]);
       User (QList [QBytes "a"; QBytes "b"; QBytes "c"], EmptyString)].
Proof. reflexivity. Qed.

(** S5: SCAN is disabled, the command is replayed as ISCAN. *)
Example S5_iscan_fallback :
  retrieveCollection SCAN0 collectionCallback
    [(UNKNOWN_SCAN, EmptyString); scanReply 0 ["x"]] =
  inr [AddCommandToWorker SCAN0;
       AddCommandToWorker (Scan.make ["iscan"; "0"; "MATCH"; "*"; "COUNT"; "100"]);
       User (QList [QBytes "x"], EmptyString)].
Proof. reflexivity. Qed.

(** S6: three masters, flushed in list order; a failure at the second
    one ends the traversal. *)
Example S6_cluster_flush :
  flushDbKeys cfgExample (-1) Cluster (clusterServer (inr (slotsReply threeMasters))) 3
    flushCallback [okVisit; okVisit; okVisit] None Linked =
  inr [ReconnectTo "10.0.0.1" 7000; AddCommandToWorker bareFLUSHDB;
       ReconnectTo "10.0.0.2" 7001; AddCommandToWorker bareFLUSHDB;
       ReconnectTo "10.0.0.3" 7002; AddCommandToWorker bareFLUSHDB;
       User EmptyString] /\
  flushDbKeys cfgExample (-1) Cluster (clusterServer (inr (slotsReply threeMasters))) 3
    flushCallback [okVisit; mkVisit EmptyString [(RNull, "timeout")]; okVisit]
    None Linked =
  inr [ReconnectTo "10.0.0.1" 7000; AddCommandToWorker bareFLUSHDB;
       ReconnectTo "10.0.0.2" 7001; AddCommandToWorker bareFLUSHDB;
       User "Cannot flush db (3): timeout"].
Proof. split; reflexivity. Qed.

(** The keys of a cluster are those of its masters, in visiting order. *)
Example cluster_keys :
  getClusterKeys cfgExample 0 10000 Cluster
    (clusterServer (inr (slotsReply threeMasters))) keysCallback "*"
    [mkVisit EmptyString [scanReply 4 ["a"]; scanReply 0 ["b"]];
     mkVisit EmptyString [scanReply 0 ["c"]];
     mkVisit EmptyString [scanReply 0 []]] =
  inr [ReconnectTo "10.0.0.1" 7000;
       AddCommandToWorker (Cmd.make ["scan"; "0"; "MATCH"; "*"; "COUNT"; "10000"] 0);
       AddCommandToWorker (Cmd.make ["scan"; "4"; "MATCH"; "*"; "COUNT"; "10000"] 0);
       ReconnectTo "10.0.0.2" 7001;
       AddCommandToWorker (Cmd.make ["scan"; "0"; "MATCH"; "*"; "COUNT"; "10000"] 0);
       ReconnectTo "10.0.0.3" 7002;
       AddCommandToWorker (Cmd.make ["scan"; "0"; "MATCH"; "*"; "COUNT"; "10000"] 0);
       User (["a"; "b"; "c"], EmptyString)].
Proof. reflexivity. Qed.

(** ** Text *)

Lemma digits_value_nonneg s : forall acc z,
  0 <= acc -> Text.digits_value acc s = Some z -> 0 <= z.
Proof.
  induction s as [|c s IH]; intros acc z Hacc; simpl.
  - intros [= <-]. exact Hacc.
  - destruct (Text.is_digit c); [|discriminate].
    apply IH. lia.
Qed.

Lemma toULongLong_nonneg s z : Text.toULongLong s = Some z -> 0 <= z.
Proof.
  unfold Text.toULongLong. destruct s as [|c s]; [discriminate|].
  destruct (Text.digits_value 0 (String c s)) as [v|] eqn:E; [|discriminate].
  destruct (v <=? Text.ULLONG_MAX); intros [= <-].
  eapply digits_value_nonneg; [|exact E]. lia.
Qed.

(** ** SCAN chains *)

Lemma valid_scan_response_not_error r :
  Resp.isValidScanResponse r = true -> Resp.isErrorMessage r = false.
Proof. destruct r; simpl; congruence. Qed.

Lemma valid_scan_response_cursor r :
  Resp.isValidScanResponse r = true -> 0 <= Resp.getCursor r.
Proof.
  destruct r as [| | | | |l]; simpl; try discriminate.
  destruct l as [|c [|items [|x l]]]; try discriminate;
    destruct items; try discriminate.
  destruct (Text.toULongLong _) as [z|] eqn:E; [|discriminate].
  intros _. simpl. eapply toULongLong_nonneg, E.
Qed.

Lemma isValid_setCursor cmd c :
  Cmd.isValid cmd = true -> Cmd.isValid (Scan.setCursor cmd c) = true.
Proof.
  unfold Cmd.isValid, Scan.setCursor. simpl.
  destruct (m_commandWithArguments cmd) as [|a l]; [discriminate|].
  intros _. destruct (Scan.cursorPos _); reflexivity.
Qed.

Lemma isValidScanCommand_isValid cmd :
  Scan.isValidScanCommand cmd = true -> Cmd.isValid cmd = true.
Proof.
  unfold Scan.isValidScanCommand, Cmd.isValid.
  destruct (m_commandWithArguments cmd) as [|a l]; [|reflexivity].
  rewrite andb_true_iff. intros [_ H]. rewrite lookup_nil in H. discriminate.
Qed.

Lemma onScanReply_more cmd acc r :
  Resp.isValidScanResponse r = true -> Resp.getCursor r <> 0 ->
  onScanReply cmd acc false r EmptyString =
  Next (Scan.setCursor cmd (Resp.getCursor r)) (acc ++ Resp.getCollection r) false.
Proof.
  intros Hv Hc. unfold onScanReply.
  rewrite (valid_scan_response_not_error _ Hv), Hv. simpl.
  pose proof (valid_scan_response_cursor _ Hv).
  destruct (Z.leb_spec (Resp.getCursor r) 0); [lia|reflexivity].
Qed.

Lemma onScanReply_last cmd acc incr r :
  Resp.isValidScanResponse r = true -> Resp.getCursor r = 0 ->
  onScanReply cmd acc incr r EmptyString =
  Deliver (QList ((if incr then [] else acc) ++ Resp.getCollection r))
          (if incr then END_OF_COLLECTION else EmptyString).
Proof.
  intros Hv Hc. unfold onScanReply.
  rewrite (valid_scan_response_not_error _ Hv), Hv, Hc. reflexivity.
Qed.

(** The aggregate continuation: every batch is appended to the shared
    list and the callback runs once, at cursor 0. *)
Lemma aggregate_chain {U} (callback : QVariant -> string -> Trace U) pre :
  forall cmd acc last,
  Cmd.isValid cmd = true ->
  Forall (fun rp => validScanReply rp /\ Resp.getCursor rp.1 <> 0) pre ->
  validScanReply last -> Resp.getCursor last.1 = 0 ->
  exists sent,
    processScanCommand cmd callback acc false (pre ++ [last]) =
    map AddCommandToWorker sent ++
    callback (QList (acc ++ batches (pre ++ [last]))) EmptyString.
Proof.
  induction pre as [|[r e] pre IH]; intros cmd acc [rl el] Hcmd Hpre [Hl1 Hl2] Hl0;
    simpl in *; subst.
  - exists [cmd]. unfold runCommandConnected. rewrite Hcmd.
    rewrite onScanReply_last by assumption.
    unfold batches. simpl. rewrite app_nil_r. reflexivity.
  - apply Forall_cons in Hpre as [[[Hv He] Hc] Hpre]. simpl in *. subst.
    destruct (IH (Scan.setCursor cmd (Resp.getCursor r))
                 (acc ++ Resp.getCollection r) (rl, EmptyString))
      as [sent Hsent]; auto using isValid_setCursor.
    { split; auto. }
    exists (cmd :: sent). unfold runCommandConnected. rewrite Hcmd.
    rewrite onScanReply_more by assumption.
    rewrite Hsent. unfold batches. simpl. rewrite <- app_assoc. reflexivity.
Qed.

Lemma userCalls_app {U} (a b : Trace U) :
  userCalls (a ++ b) = userCalls a ++ userCalls b.
Proof. unfold userCalls. apply omap_app. Qed.

Lemma userCalls_sent {U} (sent : list Command) :
  userCalls (U := U) (map AddCommandToWorker sent) = [].
Proof. induction sent; simpl; auto. Qed.

(** C4: [retrieveCollection] on a valid ScanCommand, answered by valid
    SCAN responses whose cursors are non-zero until a final cursor 0, calls
    the user callback exactly once, with the concatenation of all batches
    in reply order and an empty error string. *)
Theorem C4_retrieveCollection_concatenates cmd pre last :
  Scan.isValidScanCommand cmd = true ->
  Forall (fun rp => validScanReply rp /\ Resp.getCursor rp.1 <> 0) pre ->
  validScanReply last -> Resp.getCursor last.1 = 0 ->
  exists t,
    retrieveCollection cmd collectionCallback (pre ++ [last]) = inr t /\
    userCalls t = [(QList (batches (pre ++ [last])), EmptyString)].
Proof.
  intros Hcmd Hpre Hlast H0. unfold retrieveCollection. rewrite Hcmd. simpl.
  destruct (aggregate_chain collectionCallback pre cmd [] last)
    as [sent Hsent]; auto using isValidScanCommand_isValid.
  eexists. split; [reflexivity|].
  unfold DEFAULT_incrementalProcessing. rewrite Hsent.
  rewrite userCalls_app, userCalls_sent. reflexivity.
Qed.

Lemma C4_witness :
  exists t,
    retrieveCollection SCAN0 collectionCallback
      ([scanReply 48 ["a"; "b"]] ++ [scanReply 0 ["c"]]) = inr t /\
    userCalls t =
      [(QList (batches ([scanReply 48 ["a"; "b"]] ++ [scanReply 0 ["c"]])),
        EmptyString)].
Proof.
  apply (C4_retrieveCollection_concatenates SCAN0 [scanReply 48 ["a"; "b"]]
           (scanReply 0 ["c"])).
  - reflexivity.
  - repeat constructor; simpl; discriminate.
  - split; reflexivity.
  - reflexivity.
Defined.

(** C1: on the chain of scenario S4 (cursor 48, then cursor 0) started by
    [retrieveCollectionIncrementally], the continuation after the first
    reply runs without [incrementalProcessing]: the only call of the user
    callback carries all three items with isLast = false, and no call has
    isLast = true. *)
Theorem C1_incremental_chain_never_reports_last :
  exists t,
    retrieveCollectionIncrementally SCAN0 incrementalCallback
      [scanReply 48 ["a"; "b"]; scanReply 0 ["c"]] = inr t /\
    userCalls t =
      [(QList [QBytes "a"; QBytes "b"; QBytes "c"], EmptyString, false)] /\
    filter (fun u : QVariant * string * bool => u.2 = true) (userCalls t) = [].
Proof. eexists. split; [reflexivity|]. split; reflexivity. Qed.

(** The same holds for every chain with at least one non-zero cursor
    before the final cursor 0. *)
Lemma incremental_chain_loses_flag cmd first pre last :
  Scan.isValidScanCommand cmd = true ->
  Forall (fun rp => validScanReply rp /\ Resp.getCursor rp.1 <> 0) (first :: pre) ->
  validScanReply last -> Resp.getCursor last.1 = 0 ->
  exists t,
    retrieveCollectionIncrementally cmd incrementalCallback
      (first :: pre ++ [last]) = inr t /\
    userCalls t = [(QList (batches (first :: pre ++ [last])), EmptyString, false)].
Proof.
  intros Hcmd Hpre Hlast H0. unfold retrieveCollectionIncrementally.
  rewrite Hcmd. simpl. eexists. split; [reflexivity|].
  apply Forall_cons in Hpre as [[[Hv He] Hc] Hpre].
  destruct first as [r e]. simpl in *. subst.
  unfold runCommandConnected at 1.
  rewrite (isValidScanCommand_isValid _ Hcmd).
  unfold onScanReply at 1.
  rewrite (valid_scan_response_not_error _ Hv), Hv. simpl.
  pose proof (valid_scan_response_cursor _ Hv).
  destruct (Z.leb_spec (Resp.getCursor r) 0); [lia|].
  unfold DEFAULT_incrementalProcessing.
  edestruct (aggregate_chain
               (fun c err =>
                  if String.eqb err END_OF_COLLECTION
                  then incrementalCallback c EmptyString true
                  else if negb (Text.isEmpty err)
                       then incrementalCallback c err true
                       else incrementalCallback c EmptyString false)
               pre (Scan.setCursor cmd (Resp.getCursor r))
               (Resp.getCollection r) last) as [sent Hsent]; eauto.
  { apply isValid_setCursor, isValidScanCommand_isValid, Hcmd. }
  rewrite Hsent. simpl.
  rewrite userCalls_app, userCalls_sent. reflexivity.
Qed.

(** C3 as stated fails: for an error reply that is no disabled-command
    error the first component given to the callback is the reply's value
    (the error text as a byte array), not the null variant. *)
Lemma C3_counterexample :
  Resp.isErrorMessage WRONGTYPE = true /\
  Resp.isDisabledCommandErrorMessage WRONGTYPE = false /\
  exists v err,
    userCalls (processScanCommand SCAN0 collectionCallback [] false
                 [(WRONGTYPE, EmptyString)]) = [(v, err)] /\
    v <> QNull.
Proof.
  split; [reflexivity|]. split; [reflexivity|].
  eexists _, _. split; [reflexivity|]. discriminate.
Qed.

(** C3, amended: for every error reply that is not a disabled-command
    error for a command named scan, the collection callback receives the
    pair (value of the reply, error text), where the value of the reply is
    the error text as a byte array, and the chain stops: whatever replies
    would follow, nothing but the callback runs after the command. *)
Theorem C3_error_reply_delivers_value {U} cmd (callback : QVariant -> string -> Trace U)
    result incr r error replies :
  Cmd.isValid cmd = true ->
  Resp.isErrorMessage r = true ->
  String.eqb (Text.toLower (Cmd.getPartAsString cmd 0)) "scan"
    && Resp.isDisabledCommandErrorMessage r = false ->
  exists errorText,
    r = RError errorText /\
    processScanCommand cmd callback result incr ((r, error) :: replies) =
    AddCommandToWorker cmd :: callback (QBytes errorText) errorText.
Proof.
  intros Hcmd Herr Hno. destruct r; try discriminate.
  eexists. split; [reflexivity|].
  simpl. unfold runCommandConnected. rewrite Hcmd.
  unfold onScanReply. simpl Resp.isErrorMessage. cbv iota.
  rewrite Hno. reflexivity.
Qed.

Lemma C3_witness :
  exists errorText,
    WRONGTYPE = RError errorText /\
    processScanCommand SCAN0 collectionCallback [] false
      [(WRONGTYPE, EmptyString); scanReply 0 ["x"]] =
    AddCommandToWorker SCAN0 :: collectionCallback (QBytes errorText) errorText.
Proof.
  apply (C3_error_reply_delivers_value SCAN0 collectionCallback [] false WRONGTYPE
           EmptyString [scanReply 0 ["x"]]); reflexivity.
Defined.

Lemma name_setCursor cmd c : Scan.name (Scan.setCursor cmd c) = Scan.name cmd.
Proof.
  unfold Scan.name, Scan.setCursor, Cmd.getPartAsString, Scan.cursorPos. simpl.
  destruct (m_commandWithArguments cmd) as [|a l]; destruct (Scan.isKeyScan cmd);
    reflexivity.
Qed.

Lemma name_iscan cmd :
  Scan.name cmd = "scan" ->
  Scan.name (Scan.make (<[0%nat := "iscan"]> (Cmd.getSplitedRepresentattion cmd)))
  = "iscan".
Proof.
  unfold Scan.name, Cmd.getPartAsString, Cmd.getSplitedRepresentattion.
  destruct (m_commandWithArguments cmd) as [|a l]; simpl; [discriminate|].
  reflexivity.
Qed.

(** How the hook can end, and with which command the chain goes on. *)
Lemma onScanReply_cases cmd result incr r e :
  match onScanReply cmd result incr r e with
  | Retry c' _ _ =>
      Scan.name cmd = "scan" /\ Resp.isDisabledCommandErrorMessage r = true /\
      Scan.name c' = "iscan"
  | Next c' _ _ => Scan.name c' = Scan.name cmd
  | Deliver _ _ => True
  end.
Proof.
  unfold onScanReply. fold (Scan.name cmd).
  destruct (Resp.isErrorMessage r).
  - destruct (String.eqb_spec (Scan.name cmd) "scan") as [Hn|Hn]; simpl; [|exact I].
    destruct (Resp.isDisabledCommandErrorMessage r); [|exact I].
    auto using name_iscan.
  - destruct (negb (Text.isEmpty e)); [exact I|].
    destruct (negb (Resp.isValidScanResponse r)).
    + destruct (if incr then [] else result); exact I.
    + destruct (_ <=? 0); [exact I|]. apply name_setCursor.
Qed.

(** A chain whose command is not named scan never substitutes, and keeps
    the name of its command. *)
Lemma no_retry_unless_scan replies : forall cmd result incr,
  Scan.name cmd <> "scan" ->
  Forall (fun st => isRetry st = false /\ Scan.name (stepCmd st) = Scan.name cmd)
         (scanLog cmd result incr replies).
Proof.
  induction replies as [|[r e] replies IH]; intros cmd result incr Hn; simpl.
  - destruct (Cmd.isValid cmd); constructor.
  - destruct (Cmd.isValid cmd); [|constructor].
    pose proof (onScanReply_cases cmd result incr r e) as Hc.
    unfold isRetry.
    destruct (onScanReply cmd result incr r e) as [c' res' i'|c' res' i'|v err];
      simpl in *.
    + destruct Hc as [Hc _]. contradiction.
    + constructor; [auto|].
      rewrite <- Hc. apply IH. rewrite Hc. exact Hn.
    + repeat constructor.
Qed.

Lemma filter_isRetry_none (l : list ScanStep) :
  Forall (fun s => isRetry s = false) l ->
  filter (fun s => isRetry s = true) l = [].
Proof.
  induction 1 as [|s l Hs _ IH]; [reflexivity|].
  rewrite filter_cons. destruct (decide (isRetry s = true)); [congruence|exact IH].
Qed.

(** C5 as stated fails: the substitution is not tied to the first reply
    of the chain.  Here the first reply is a valid SCAN response with
    cursor 48 and the second one is the disabled-command error; the hook
    of the second reply replays the command as ISCAN. *)
Lemma C5_counterexample :
  exists st,
    scanLog SCAN0 [] false
      [scanReply 48 ["a"]; (UNKNOWN_SCAN, EmptyString); scanReply 0 ["b"]]
      !! 1%nat = Some st /\
    isRetry st = true /\
    Resp.isErrorMessage (scanReply 48 ["a"]).1 = false.
Proof. eexists. split; [reflexivity|]. split; reflexivity. Qed.

(** C5, amended: in every scan chain the SCAN to ISCAN substitution occurs
    at most once, and only at a reply (the first or a later one) that is a
    disabled-command error while the command name is, case-insensitively,
    scan; every command after the substitution is named iscan and no
    reply to it, a disabled-command error included, triggers a further
    substitution. *)
Theorem C5_substitution_at_most_once cmd result incr replies before st after :
  scanLog cmd result incr replies = before ++ st :: after ->
  isRetry st = true ->
  Scan.name (stepCmd st) = "scan" /\
  Resp.isDisabledCommandErrorMessage (stepReply st).1 = true /\
  Forall (fun s => isRetry s = false) before /\
  Forall (fun s => isRetry s = false /\ Scan.name (stepCmd s) = "iscan") after /\
  length (filter (fun s => isRetry s = true) (scanLog cmd result incr replies))
  = 1%nat.
Proof.
  revert cmd result incr before.
  induction replies as [|[r e] replies IH]; intros cmd result incr before Hlog Hst.
  { simpl in Hlog. destruct (Cmd.isValid cmd), before; discriminate. }
  rewrite Hlog. simpl in Hlog.
  destruct (Cmd.isValid cmd); [|destruct before; discriminate].
  pose proof (onScanReply_cases cmd result incr r e) as Hc.
  destruct before as [|s0 before]; simpl in Hlog; injection Hlog as Hhd Htl.
  - subst st. unfold isRetry in Hst. simpl in *.
    destruct (onScanReply cmd result incr r e) as [c' res' i'|c' res' i'|v err];
      try discriminate.
    destruct Hc as (Hn & Hd & Hi).
    assert (Hafter : Forall (fun s => isRetry s = false /\
                                      Scan.name (stepCmd s) = "iscan") after).
    { subst after. rewrite <- Hi. apply no_retry_unless_scan.
      rewrite Hi. discriminate. }
    repeat split; auto.
    rewrite filter_cons. unfold isRetry at 1. simpl.
    rewrite filter_isRetry_none; [reflexivity|].
    eapply Forall_impl; [exact Hafter|]. intros s [H _]. exact H.
  - subst s0.
    destruct (onScanReply cmd result incr r e) as [c' res' i'|c' res' i'|v err]
      eqn:Ho.
    + exfalso. destruct Hc as (_ & _ & Hi).
      assert (Hno := no_retry_unless_scan replies c' res' i').
      rewrite Htl in Hno. rewrite Hi in Hno.
      specialize (Hno ltac:(discriminate)).
      apply Forall_app in Hno as [_ Hno]. apply Forall_cons in Hno as [[Hno _] _].
      congruence.
    + destruct (IH _ _ _ _ Htl Hst) as (Hn & Hd & Hb & Ha & Hlen).
      split; [exact Hn|]. split; [exact Hd|]. split; [|split; [exact Ha|]].
      * constructor; [reflexivity|exact Hb].
      * change ((?x :: before) ++ st :: after) with (x :: (before ++ st :: after)).
        rewrite filter_cons. unfold isRetry at 1. simpl.
        rewrite <- Htl. exact Hlen.
    + destruct before; discriminate.
Qed.

Lemma C5_witness :
  let log := scanLog SCAN0 [] false [(UNKNOWN_SCAN, EmptyString);
                                     (UNKNOWN_SCAN, EmptyString)] in
  exists st after,
    log = [] ++ st :: after /\
    isRetry st = true /\
    Scan.name (stepCmd st) = "scan" /\
    Resp.isDisabledCommandErrorMessage (stepReply st).1 = true /\
    Forall (fun s => isRetry s = false) [] /\
    Forall (fun s => isRetry s = false /\ Scan.name (stepCmd s) = "iscan") after /\
    length (filter (fun s => isRetry s = true) log) = 1%nat.
Proof.
  eexists _, _. split; [reflexivity|]. split; [reflexivity|].
  eapply (C5_substitution_at_most_once SCAN0 [] false
            [(UNKNOWN_SCAN, EmptyString); (UNKNOWN_SCAN, EmptyString)] []);
    reflexivity.
Defined.

(** ** ServerInfo::fromString *)

Lemma fromString_clusterMode info :
  clusterMode (Info.fromString info) =
  bool_decide (Re.search Re.modeRegex info = Some "cluster").
Proof.
  unfold Info.fromString.
  destruct (bool_decide (_ = Some "cluster")); [reflexivity|].
  destruct (bool_decide (_ = Some "sentinel")); [reflexivity|].
  destruct (Info.lastKey _); reflexivity.
Qed.

Lemma fromString_sentinelMode info :
  sentinelMode (Info.fromString info) =
  bool_decide (Re.search Re.modeRegex info = Some "sentinel").
Proof.
  unfold Info.fromString.
  destruct (bool_decide (_ = Some "cluster")); [reflexivity|].
  destruct (bool_decide (_ = Some "sentinel")); [reflexivity|].
  destruct (Info.lastKey _); reflexivity.
Qed.

(** The two mode flags exclude each other. *)
Lemma sentinel_not_cluster info :
  sentinelMode (Info.fromString info) = true ->
  clusterMode (Info.fromString info) = false.
Proof.
  rewrite fromString_clusterMode, fromString_sentinelMode.
  intros H%bool_decide_eq_true. rewrite H. reflexivity.
Qed.

Lemma span_head p s c a b : Re.span p s = (String c a, b) -> p c = true.
Proof.
  destruct s as [|c' s]; simpl; [discriminate|].
  destruct (p c') eqn:E; [|discriminate].
  destruct (Re.span p s). intros [= -> _ _]. exact E.
Qed.

Lemma plus_head p s run rest :
  Re.plus p s = Some (run, rest) -> exists c a, run = String c a /\ p c = true.
Proof.
  unfold Re.plus. destruct (Re.span p s) as [[|c a] b] eqn:E; [discriminate|].
  intros [= <- <-]. eauto using span_head.
Qed.

Lemma trimmed_digit c a :
  Text.is_digit c = true -> exists t, Text.trimmed (String c a) = String c t.
Proof.
  intros Hc. unfold Text.trimmed.
  assert (Hs : Text.is_space c = false)
    by (destruct c as [[] [] [] [] [] [] [] []]; try discriminate Hc; reflexivity).
  simpl. rewrite Hs. simpl. rewrite Hs.
  destruct (Text.trimRight a); eauto.
Qed.

Lemma toInt_digits_nonneg c a : Text.is_digit c = true -> 0 <= Text.toInt (String c a).
Proof.
  intros Hc. unfold Text.toInt.
  destruct (trimmed_digit c a Hc) as [t ->].
  assert (Hp : Text.parse_decimal (String c t) = Text.digits_value 0 (String c t)).
  { destruct c as [[] [] [] [] [] [] [] []]; try discriminate Hc;
      destruct t; reflexivity. }
  rewrite Hp. destruct (Text.digits_value 0 (String c t)) as [z|] eqn:E; [|lia].
  apply digits_value_nonneg in E; [|lia].
  destruct (_ && _); lia.
Qed.

Lemma globalMatch_index_nonneg info m :
  m ∈ Re.globalMatch info -> 0 <= Text.toInt m.1.
Proof.
  unfold Re.globalMatch. rewrite list_elem_of_omap.
  intros (line & _ & Hm). unfold Re.getDbAndKeysCount in Hm.
  apply bind_Some in Hm as (r1 & _ & Hm).
  apply bind_Some in Hm as ([db r2] & Hdb & Hm).
  apply bind_Some in Hm as (r3 & _ & Hm).
  apply bind_Some in Hm as ([keys r4] & _ & Hm).
  injection Hm as <-. simpl.
  apply plus_head in Hdb as (c & a & -> & Hc). apply toInt_digits_nonneg, Hc.
Qed.

Lemma keyspace_fold_keys (l : list (string * string)) : forall (dbs : gmap Z Z) k,
  is_Some (foldl (fun dbs m => <[Text.toInt m.1 := Text.toInt m.2]> dbs) dbs l !! k) ->
  is_Some (dbs !! k) \/ exists m, m ∈ l /\ Text.toInt m.1 = k.
Proof.
  induction l as [|m l IH]; intros dbs k; simpl; [auto|].
  intros H. apply IH in H as [H|(m' & Hin & Hk)].
  - destruct (decide (Text.toInt m.1 = k)) as [E|E].
    + right. exists m. split; [left|exact E].
    + rewrite lookup_insert_ne in H by exact E. auto.
  - right. exists m'. split; [right; exact Hin|exact Hk].
Qed.

(** Every database index of the keyspace map is non-negative. *)
Lemma keyspace_keys_nonneg info k : is_Some (Info.keyspace info !! k) -> 0 <= k.
Proof.
  unfold Info.keyspace. intros H. apply keyspace_fold_keys in H as [H|(m & Hin & <-)].
  - rewrite lookup_empty in H. destruct H; discriminate.
  - eapply globalMatch_index_nonneg, Hin.
Qed.

Lemma lastKey_list (l : list Z) :
  match foldr (fun k acc => Some (match acc with Some a => Z.max k a | None => k end))
              None l with
  | None => l = []
  | Some k => k ∈ l /\ forall j, j ∈ l -> j <= k
  end.
Proof.
  induction l as [|x l IH]; simpl; [reflexivity|].
  destruct (foldr _ None l) as [a|].
  - destruct IH as [Ha Hmax]. split.
    + destruct (Z.max_spec x a) as [[_ ->]|[_ ->]]; [right; exact Ha|left].
    + intros j [->|Hj]%elem_of_cons; [lia|]. specialize (Hmax j Hj). lia.
  - subst l. split; [left|]. intros j [->|Hj]%elem_of_cons; [lia|].
    inversion Hj.
Qed.

Lemma elem_of_keys (dbs : gmap Z Z) k :
  k ∈ (map_to_list dbs).*1 <-> is_Some (dbs !! k).
Proof.
  rewrite list_elem_of_fmap. split.
  - intros ([k' v] & -> & H%elem_of_map_to_list). eauto.
  - intros [v H]. exists (k, v). split; [reflexivity|].
    apply elem_of_map_to_list, H.
Qed.

(** [lastKey] is the largest key, and there is none only in the empty
    map. *)
Lemma lastKey_spec (dbs : gmap Z Z) :
  match Info.lastKey dbs with
  | None => dbs = ∅
  | Some k => is_Some (dbs !! k) /\ forall j, is_Some (dbs !! j) -> j <= k
  end.
Proof.
  unfold Info.lastKey.
  pose proof (lastKey_list ((map_to_list dbs).*1)) as H.
  destruct (foldr _ None _) as [k|].
  - destruct H as [Hk Hmax]. split; [apply elem_of_keys, Hk|].
    intros j Hj. apply Hmax, elem_of_keys, Hj.
  - apply fmap_nil_inv in H. apply map_to_list_empty_iff, H.
Qed.

Lemma fillGaps_fold (l : list Z) : forall (dbs : gmap Z Z) i,
  foldl (fun dbs dbIndex =>
           match dbs !! dbIndex with
           | Some _ => dbs
           | None => <[dbIndex := 0]> dbs
           end) dbs l !! i =
  match dbs !! i with
  | Some v => Some v
  | None => if bool_decide (i ∈ l) then Some 0 else None
  end.
Proof.
  induction l as [|x l IH]; intros dbs i; simpl.
  - destruct (dbs !! i); reflexivity.
  - rewrite IH. destruct (dbs !! x) eqn:Ex.
    + destruct (dbs !! i) eqn:Ei; [reflexivity|].
      assert (i <> x) by congruence.
      rewrite !bool_decide_decide.
      destruct (decide (i ∈ l)), (decide (i ∈ x :: l)) as [Hin|Hin];
        try reflexivity; exfalso.
      * apply Hin. right. assumption.
      * apply elem_of_cons in Hin as [?|?]; contradiction.
    + destruct (decide (x = i)) as [->|Hne].
      * rewrite lookup_insert_eq, Ex.
        rewrite (bool_decide_eq_true_2 (i ∈ i :: l)); [reflexivity|left].
      * rewrite lookup_insert_ne by exact Hne.
        destruct (dbs !! i); [reflexivity|].
        rewrite !bool_decide_decide.
        destruct (decide (i ∈ l)), (decide (i ∈ x :: l)) as [Hin|Hin];
          try reflexivity; exfalso.
        -- apply Hin. right. assumption.
        -- apply elem_of_cons in Hin as [?|?]; [congruence|contradiction].
Qed.

(** After the loop the map is defined exactly on 0..last, with the
    reported count where there is one and 0 elsewhere. *)
Lemma fillGaps_dense (dbs : gmap Z Z) last i :
  is_Some (dbs !! last) ->
  (forall j, is_Some (dbs !! j) -> 0 <= j <= last) ->
  Info.fillGaps dbs last !! i =
  if bool_decide (0 <= i <= last) then Some (default 0 (dbs !! i)) else None.
Proof.
  intros Hlast Hrange. unfold Info.fillGaps. rewrite fillGaps_fold.
  destruct (dbs !! i) as [v|] eqn:Ei.
  - rewrite bool_decide_eq_true_2; [reflexivity|]. apply Hrange. eauto.
  - rewrite !bool_decide_decide.
    destruct (decide (i ∈ seqZ 0 last)) as [Hin|Hin], (decide (0 <= i <= last))
      as [Hr|Hr]; try reflexivity; exfalso.
    + apply elem_of_seqZ in Hin. lia.
    + apply Hin, elem_of_seqZ.
      assert (i <> last) by (intros ->; rewrite Ei in Hlast; destruct Hlast; discriminate).
      lia.
Qed.

(** C7 as stated fails for a sentinel: the INFO text below reports
    redis_mode:sentinel and a database 2 with one key, and the map of the
    result is empty instead of being filled on 0..2. *)
Lemma C7_counterexample :
  let si := Info.fromString INFO_sentinel in
  clusterMode si = false /\ sentinelMode si = true /\
  Info.largestObserved INFO_sentinel 2 /\
  databases si !! 0 = None /\ databases si !! 2 = None.
Proof.
  split; [reflexivity|]. split; [reflexivity|]. split; [|split; reflexivity].
  split; [exists 1; reflexivity|].
  intros j Hj. split; [eapply keyspace_keys_nonneg, Hj|].
  pose proof (lastKey_spec (Info.keyspace INFO_sentinel)) as H.
  replace (Info.lastKey (Info.keyspace INFO_sentinel)) with (Some 2) in H
    by reflexivity.
  apply H, Hj.
Qed.

(** C7, amended: for every input string, if clusterMode is true then
    databases is exactly the single entry 0 -> 0; if sentinelMode is true
    then databases is empty; otherwise databases is empty when the INFO
    text reports no database, and else it is defined exactly on the
    indices from 0 to the largest reported index, with the reported count
    where there is one and 0 elsewhere. *)
Theorem C7_databases_by_mode info :
  let si := Info.fromString info in
  (clusterMode si = true -> databases si = {[0 := 0]}) /\
  (sentinelMode si = true -> clusterMode si = false /\ databases si = ∅) /\
  (clusterMode si = false -> sentinelMode si = false ->
   (Info.keyspace info = ∅ /\ databases si = ∅) \/
   (exists last,
      Info.largestObserved info last /\
      forall i, databases si !! i =
                if bool_decide (0 <= i <= last)
                then Some (default 0 (Info.keyspace info !! i)) else None)).
Proof.
  cbv zeta.
  pose proof (fromString_clusterMode info) as Hc.
  pose proof (fromString_sentinelMode info) as Hs.
  pose proof (sentinel_not_cluster info) as Hsc.
  revert Hc Hs Hsc. unfold Info.fromString.
  destruct (bool_decide (Re.search Re.modeRegex info = Some "cluster")) eqn:Ec.
  { simpl. intros _ _ _. split; [reflexivity|]. split; [|discriminate].
    intros E. apply bool_decide_eq_true in Ec, E. congruence. }
  destruct (bool_decide (Re.search Re.modeRegex info = Some "sentinel")) eqn:Es.
  { simpl. intros _ _ _. split; [discriminate|]. split; [auto|discriminate]. }
  pose proof (lastKey_spec (Info.keyspace info)) as Hlast.
  destruct (Info.lastKey (Info.keyspace info)) as [last|]; simpl; intros _ _ _.
  - split; [discriminate|]. split; [discriminate|]. intros _ _. right.
    destruct Hlast as [Hin Hmax]. exists last.
    assert (Hobs : Info.largestObserved info last).
    { split; [exact Hin|]. intros j Hj. split; [eapply keyspace_keys_nonneg, Hj|].
      apply Hmax, Hj. }
    split; [exact Hobs|]. intros i. apply fillGaps_dense; apply Hobs.
  - split; [discriminate|]. split; [discriminate|]. intros _ _. left. auto.
Qed.

Lemma C7_witness :
  databases (Info.fromString INFO_S1) !! 1 = Some 0 /\
  databases (Info.fromString INFO_cluster) = {[0 := 0]} /\
  databases (Info.fromString INFO_sentinel) = ∅.
Proof.
  split; [|split].
  - destruct (C7_databases_by_mode INFO_S1) as (_ & _ & H).
    destruct (H eq_refl eq_refl) as [[H0 _]|(last & [_ Hmax] & Hdense)].
    + exfalso. apply (f_equal (fun m : gmap Z Z => m !! 2)) in H0.
      vm_compute in H0. discriminate.
    + rewrite Hdense. assert (2 <= last) by (apply Hmax; exists 1; reflexivity).
      rewrite bool_decide_eq_true_2 by lia. reflexivity.
  - apply (C7_databases_by_mode INFO_cluster). reflexivity.
  - apply (C7_databases_by_mode INFO_sentinel). reflexivity.
Defined.

(** ** Authentication *)

(** C6: in [auth], when the server reports sentinel mode and SENTINEL
    masters returns a first entry with at least 6 fields, the Connection
    emits reconnectTo(host, port) with the port read from field 5 and the
    host from field 3, except that the configured host is taken when
    field 3 is 127.0.0.1 or localhost and no SSH tunnel is used; authOk is
    not emitted. *)
Theorem C6_sentinel_redirect cfg server mode0 info0 a testResult infoResult
    first others :
  (if Config.useAuth cfg return Throws Response
   then server ["AUTH"; Config.auth cfg] else inr RNull) = inr a ->
  server ["PING"] = inr testResult ->
  Variant.toByteArray (Resp.value testResult) = "PONG" ->
  server ["INFO"; "ALL"] = inr infoResult ->
  sentinelMode (Info.fromString (Variant.toString (Resp.value infoResult))) = true ->
  server ["SENTINEL"; "masters"] = inr (RArray (first :: others)) ->
  (6 <= length (Variant.toStringList (Resp.value first)))%nat ->
  let masterInfo := Variant.toStringList (Resp.value first) in
  let field3 := nth 3 masterInfo EmptyString in
  let field5 := nth 5 masterInfo EmptyString in
  let target :=
    if decide (useSshTunnel cfg = false /\
               (field3 = "127.0.0.1" \/ field3 = "localhost"))
    then host cfg else field3 in
  let signals := (auth cfg server mode0 info0).1.1 in
  signals = [sig_log "AUTH";
             sig_log "Sentinel detected. Requesting master node...";
             sig_reconnectTo target (Text.toInt field5)] /\
  sig_authOk ∉ signals.
Proof.
  intros Hauth Hping Hpong Hinfo Hsent Hmasters Hlen. cbv zeta.
  assert (Hsig : (auth cfg server mode0 info0).1.1 =
    [sig_log "AUTH"; sig_log "Sentinel detected. Requesting master node...";
     sig_reconnectTo
       (if decide (useSshTunnel cfg = false /\
                   (nth 3 (Variant.toStringList (Resp.value first)) EmptyString
                      = "127.0.0.1" \/
                    nth 3 (Variant.toStringList (Resp.value first)) EmptyString
                      = "localhost"))
        then host cfg
        else nth 3 (Variant.toStringList (Resp.value first)) EmptyString)
       (Text.toInt (nth 5 (Variant.toStringList (Resp.value first)) EmptyString))]).
  { unfold auth. rewrite Hauth, Hping, Hpong, Hinfo. simpl negb. cbv iota.
    rewrite (sentinel_not_cluster _ Hsent), Hsent. cbn [fst].
    assert (Hlt : (length (Variant.toStringList (Resp.value first)) <? 6)%nat
                  = false) by (apply Nat.ltb_ge; lia).
    unfold authSentinel. rewrite Hmasters.
    cbn [Resp.isArray negb Resp.value Variant.toList map].
    rewrite Hlt.
    set (f3 := nth 3 (Variant.toStringList (Resp.value first)) EmptyString).
    simpl app. f_equal. f_equal. f_equal.
    destruct (decide _) as [[Hs Hh]|N].
    - rewrite Hs. simpl. destruct Hh as [Hh|Hh]; rewrite Hh; reflexivity.
    - destruct (useSshTunnel cfg); simpl; [reflexivity|].
      destruct (String.eqb_spec f3 "127.0.0.1") as [E1|E1]; simpl;
        [exfalso; apply N; auto|].
      destruct (String.eqb_spec f3 "localhost") as [E2|E2]; simpl;
        [exfalso; apply N; auto|reflexivity]. }
  split; [exact Hsig|]. rewrite Hsig.
  intros H. repeat (apply elem_of_cons in H as [H|H]; [discriminate|]).
  inversion H.
Qed.

Lemma C6_witness :
  let signals := (auth cfgExample (sentinelServer "127.0.0.1") Normal noServerInfo).1.1 in
  signals = [sig_log "AUTH";
             sig_log "Sentinel detected. Requesting master node...";
             sig_reconnectTo "db.example.com" 6380] /\
  sig_authOk ∉ signals.
Proof.
  apply (C6_sentinel_redirect cfgExample (sentinelServer "127.0.0.1") Normal
           noServerInfo RNull (RStatus "PONG") (RBulk INFO_sentinel)
           (RArray (map RBulk ["name"; "mymaster"; "ip"; "127.0.0.1";
                               "port"; "6380"; "runid"; "x"])) []);
    try reflexivity.
  simpl. lia.
Defined.

(** ** Cluster-wide operations *)

(** *** The texts built with [QString::arg] *)

Lemma minEscape_percentFree x t :
  percentFree x = true -> Text.minEscape 0 (x +:+ t) = Text.minEscape 0 t.
Proof.
  induction x as [|c x IH]; simpl; [reflexivity|].
  intros [Hc Hx]%andb_true_iff. apply negb_true_iff in Hc. rewrite Hc. auto.
Qed.

Lemma replaceEscapes_percentFree n a x t :
  percentFree x = true ->
  Text.replaceEscapes n a 0 (x +:+ t) = x +:+ Text.replaceEscapes n a 0 t.
Proof.
  induction x as [|c x IH]; simpl; [reflexivity|].
  intros [Hc Hx]%andb_true_iff. apply negb_true_iff in Hc. rewrite Hc.
  rewrite (IH Hx). reflexivity.
Qed.

Lemma string_of_uint_percentFree d :
  percentFree (NilEmpty.string_of_uint d) = true.
Proof. induction d; simpl; auto. Qed.

Lemma number_percentFree z : percentFree (Text.number z) = true.
Proof.
  unfold Text.number, NilZero.string_of_int, NilZero.string_of_uint.
  destruct (Z.to_int z) as [d|d]; destruct d; simpl;
    auto using string_of_uint_percentFree.
Qed.

Lemma append_empty_r s : s +:+ EmptyString = s.
Proof.
  induction s as [|c s IH]; [reflexivity|].
  change (String c (s +:+ EmptyString) = String c s). now rewrite IH.
Qed.

(** The cannot-flush text is the template with the index and the error
    put in, whatever the error text holds: a text put in by [arg] is not
    read again. *)
Lemma cannotFlush_text d err :
  cannotFlush d err = "Cannot flush db (" +:+ Text.number d +:+ "): " +:+ err.
Proof.
  unfold cannotFlush.
  assert (H1 : Text.argInt "Cannot flush db (%1): %2" d =
               "Cannot flush db (" +:+ (Text.number d +:+ "): %2"))
    by reflexivity.
  rewrite H1. unfold Text.arg.
  change (Text.minEscape 0 ("Cannot flush db (" +:+ (Text.number d +:+ "): %2")))
    with (Text.minEscape 0 (Text.number d +:+ "): %2")).
  rewrite minEscape_percentFree by apply number_percentFree.
  change (Text.minEscape 0 "): %2") with (Some 2%nat). cbv iota.
  change (Text.replaceEscapes 2 err 0
            ("Cannot flush db (" +:+ (Text.number d +:+ "): %2")))
    with ("Cannot flush db (" +:+
          Text.replaceEscapes 2 err 0 (Text.number d +:+ "): %2")).
  rewrite replaceEscapes_percentFree by apply number_percentFree.
  change (Text.replaceEscapes 2 err 0 "): %2")
    with ("): " +:+ (err +:+ EmptyString)).
  rewrite append_empty_r. reflexivity.
Qed.

(** The cannot-connect text names the configured host and port when the
    host holds no percent sign. *)
Lemma cannotConnect_text cfg :
  percentFree (host cfg) = true ->
  cannotConnect cfg =
  "Cannot connect to cluster node " +:+ host cfg +:+ ":" +:+
  Text.number (port cfg).
Proof.
  intros Hh. unfold cannotConnect, Text.argInt, Text.arg.
  change (Text.minEscape 0 "Cannot connect to cluster node %1:%2")
    with (Some 1%nat). cbv iota.
  change (Text.replaceEscapes 1 (host cfg) 0 "Cannot connect to cluster node %1:%2")
    with ("Cannot connect to cluster node " +:+ (host cfg +:+ ":%2")).
  change (Text.minEscape 0
            ("Cannot connect to cluster node " +:+ (host cfg +:+ ":%2")))
    with (Text.minEscape 0 (host cfg +:+ ":%2")).
  rewrite minEscape_percentFree by exact Hh.
  change (Text.minEscape 0 ":%2") with (Some 2%nat). cbv iota.
  change (Text.replaceEscapes 2 (Text.number (port cfg)) 0
            ("Cannot connect to cluster node " +:+ (host cfg +:+ ":%2")))
    with ("Cannot connect to cluster node " +:+
          Text.replaceEscapes 2 (Text.number (port cfg)) 0 (host cfg +:+ ":%2")).
  rewrite replaceEscapes_percentFree by exact Hh.
  change (Text.replaceEscapes 2 (Text.number (port cfg)) 0 ":%2")
    with (":" +:+ (Text.number (port cfg) +:+ EmptyString)).
  rewrite append_empty_r. reflexivity.
Qed.

(** A host that holds a place marker takes part in the second [arg]. *)
Example cannotConnect_marker_in_host :
  cannotConnect (mkConfig "%2" 7000 None false true) =
  "Cannot connect to cluster node 7000:7000" /\
  cannotConnect (mkConfig "%1" 7000 None false true) =
  "Cannot connect to cluster node 7000:%2".
Proof. split; reflexivity. Qed.

(** [flushDbKeys] outside cluster mode on a Connection that is not
    connected: the exception of [runCommand] or of [connect] is rethrown
    by [command]; with autoConnect the command waits for the hook, is
    sent after [authOk] and dropped after [error]. *)
Example flush_not_connected :
  let flush := flushDbKeys cfgExample (-1) Normal standaloneServer 3
                 flushCallback [] (Some (RStatus "OK", EmptyString)) in
  flush Unlinked =
    inl (mkException
           "Cannot execute command.Try run command in not connected state") /\
  flush (AutoLink (inl (mkException "Invalid config detected"))) =
    inl (mkException "Cannot execute command.Invalid config detected") /\
  flush (AutoLink (inr None)) = inr [] /\
  flush (AutoLink (inr (Some (EmptyString, Linked)))) =
    inr [AddCommandToWorker (flushCommand 3); User EmptyString] /\
  flush (AutoLink (inr (Some ("Connection refused", Linked)))) = inr [].
Proof. repeat split. Qed.

(** C2 as stated fails for [flushDbKeys]: on a connected Connection in
    Normal mode it does not fail, it sends FLUSHDB for the database
    given. *)
Lemma C2_counterexample :
  flushDbKeys cfgExample (-1) Normal (clusterServer (inr (slotsReply []))) 3
    flushCallback [] (Some (RStatus "OK", EmptyString)) Linked =
  inr [AddCommandToWorker (mkCommand ["FLUSHDB"] 3 false); User EmptyString].
Proof. reflexivity. Qed.

(** C2, amended: on a Connection whose mode is not Cluster,
    [getClusterKeys] fails with the not-in-cluster-mode exception and
    does nothing else.  [flushDbKeys] has no such check and never fails
    with that exception: on a connected Connection it sends one FLUSHDB
    for database dbIndex and reports the outcome of that command to the
    callback; on a Connection that is not connected and has autoConnect
    off it fails with the exception of [runCommand], as rethrown by
    [command]. *)
Theorem C2_not_cluster {U V} cfg dflt dbDefault scanLimit mode server
    (kcb : list string -> string -> Trace U) pattern visits dbIndex
    (fcb : string -> Trace V) reply link :
  mode <> Cluster ->
  getClusterKeys cfg dbDefault scanLimit mode server kcb pattern visits =
    inl (mkException "Connection is not in cluster mode") /\
  flushDbKeys cfg dflt mode server dbIndex fcb visits reply link <>
    inl (mkException "Connection is not in cluster mode") /\
  flushDbKeys cfg dflt mode server dbIndex fcb visits reply Linked =
    inr (AddCommandToWorker (mkCommand ["FLUSHDB"] dbIndex false) ::
         match reply with
         | None => []
         | Some (_, err) =>
             if Text.isEmpty err then fcb EmptyString
             else fcb (cannotFlush dbIndex err)
         end) /\
  flushDbKeys cfg dflt mode server dbIndex fcb visits reply Unlinked =
    inl (mkException
           "Cannot execute command.Try run command in not connected state").
Proof.
  intros Hmode. unfold getClusterKeys, flushDbKeys.
  rewrite (bool_decide_eq_true_2 _ Hmode), (bool_decide_eq_false_2 _ Hmode).
  split; [reflexivity|]. split; [|split; [|reflexivity]].
  - unfold commandVia.
    destruct (runVia link _ _) as [e|t]; [|discriminate].
    simpl. intros H. discriminate H.
  - unfold commandVia. simpl. f_equal. f_equal.
    destruct reply as [[r err]|]; [|reflexivity].
    destruct (Text.isEmpty err); reflexivity.
Qed.

Lemma C2_witness :
  getClusterKeys cfgExample 0 10000 Normal standaloneServer keysCallback "*" [] =
    inl (mkException "Connection is not in cluster mode") /\
  flushDbKeys cfgExample (-1) Normal standaloneServer 3 flushCallback []
    (Some (RStatus "OK", EmptyString))
    (AutoLink (inr (Some (EmptyString, Linked)))) <>
    inl (mkException "Connection is not in cluster mode") /\
  flushDbKeys cfgExample (-1) Normal standaloneServer 3 flushCallback []
    (Some (RStatus "OK", EmptyString)) Linked =
    inr (AddCommandToWorker (mkCommand ["FLUSHDB"] 3 false) ::
         match Some (RStatus "OK", EmptyString) with
         | None => []
         | Some (_, err) =>
             if Text.isEmpty err then flushCallback EmptyString
             else flushCallback (cannotFlush 3 err)
         end) /\
  flushDbKeys cfgExample (-1) Normal standaloneServer 3 flushCallback []
    (Some (RStatus "OK", EmptyString)) Unlinked =
    inl (mkException
           "Cannot execute command.Try run command in not connected state").
Proof.
  apply (C2_not_cluster cfgExample (-1) 0 10000 Normal standaloneServer
           keysCallback "*" [] 3 flushCallback
           (Some (RStatus "OK", EmptyString))
           (AutoLink (inr (Some (EmptyString, Linked))))).
  discriminate.
Defined.

(** C9: when [getMasterNodes] returns the empty list, because CLUSTER
    SLOTS failed or listed no slot, [clusterConnectToNextMasterNode]
    returns at once and the user callback of [flushDbKeys] and of
    [getClusterKeys] never runs, whatever happens afterwards. *)
Theorem C9_no_callback_without_masters cfg dflt dbDefault scanLimit e dbIndex
    pattern visits reply link :
  flushDbKeys cfg dflt Cluster (clusterServer (inl e)) dbIndex flushCallback
    visits reply link
    = inr [EmitError "Cannot retrive nodes list"] /\
  getClusterKeys cfg dbDefault scanLimit Cluster (clusterServer (inl e))
    keysCallback pattern visits
    = inr [EmitError "Cannot retrive nodes list"] /\
  flushDbKeys cfg dflt Cluster (clusterServer (inr (slotsReply []))) dbIndex
    flushCallback visits reply link = inr [] /\
  getClusterKeys cfg dbDefault scanLimit Cluster (clusterServer (inr (slotsReply [])))
    keysCallback pattern visits = inr [] /\
  userCalls (U := string) [EmitError "Cannot retrive nodes list"] = [].
Proof.
  unfold flushDbKeys, getClusterKeys. simpl.
  destruct visits; repeat split; reflexivity.
Qed.

Lemma flushAgree_nil cfg dflt d : flushAgree cfg dflt d [] [].
Proof. repeat split; constructor. Qed.

Lemma flushAgree_reconnect cfg dflt d h p t t' :
  flushAgree cfg dflt d t t' -> flushAgree cfg dflt d (ReconnectTo h p :: t) (ReconnectTo h p :: t').
Proof. intros (H1 & H2 & H3). repeat split; simpl; [exact H1|f_equal; exact H2|exact H3]. Qed.

Lemma flushAgree_command cfg dflt d t t' :
  flushAgree cfg dflt d t t' ->
  flushAgree cfg dflt d (AddCommandToWorker (flushCommand dflt) :: t)
                        (AddCommandToWorker (flushCommand dflt) :: t').
Proof.
  intros (H1 & H2 & H3). repeat split; simpl;
    [constructor; [reflexivity|exact H1]|f_equal; exact H2|exact H3].
Qed.

Lemma flushAgree_user cfg dflt d msg msg' :
  flushReport cfg d msg -> flushAgree cfg dflt d [User msg] [User msg'].
Proof.
  intros H. split; [constructor|]. split; [reflexivity|].
  simpl. constructor; [exact H|constructor].
Qed.

(** The traversal of [flushDbKeys]: the commands sent are bare FLUSHDB,
    the actions do not depend on dbIndex but for the text handed to the
    callback, and that text is one of the three reports. *)
Lemma flushMasters_dbIndex cfg dflt dbIndex dbIndex' visits : forall nodes,
  flushAgree cfg dflt dbIndex (flushMasters cfg dflt dbIndex flushCallback nodes visits)
                         (flushMasters cfg dflt dbIndex' flushCallback nodes visits).
Proof.
  induction visits as [|v visits IH]; intros [|h rest]; simpl;
    try apply flushAgree_nil.
  - destruct (overrideClusterHost cfg); apply flushAgree_reconnect, flushAgree_nil.
  - assert (Hhd : forall tl tl' : Trace string,
      flushAgree cfg dflt dbIndex tl tl' ->
      flushAgree cfg dflt dbIndex
        ((if overrideClusterHost cfg then ReconnectTo h.1 h.2
          else ReconnectTo (host cfg) h.2) :: tl)
        ((if overrideClusterHost cfg then ReconnectTo h.1 h.2
          else ReconnectTo (host cfg) h.2) :: tl')).
    { intros tl tl' H. destruct (overrideClusterHost cfg);
        apply flushAgree_reconnect, H. }
    apply Hhd. clear Hhd.
    destruct (Text.isEmpty (connectError v)); simpl.
    2:{ apply flushAgree_user. right. left. reflexivity. }
    unfold command. simpl. apply flushAgree_command.
    destruct (nodeReplies v) as [|[r err] more]; [apply flushAgree_nil|].
    destruct (Text.isEmpty err); simpl.
    2:{ apply flushAgree_user. right. right. eexists. reflexivity. }
    destruct rest as [|h' rest'].
    + apply flushAgree_user. left. reflexivity.
    + apply IH.
Qed.

(** Scenario S6: when every master is reached and flushed, each master is
    visited once, in list order, and the callback runs once, with an
    empty error. *)
Lemma flushMasters_all_ok cfg dflt dbIndex nodes : forall visits,
  nodes <> [] ->
  length visits = length nodes ->
  Forall (fun v => connectError v = EmptyString /\
                   exists r more, nodeReplies v = (r, EmptyString) :: more) visits ->
  flushMasters cfg dflt dbIndex flushCallback nodes visits =
  concat (map (fun h => [ReconnectTo (nodeTarget cfg h).1 (nodeTarget cfg h).2;
                         AddCommandToWorker (flushCommand dflt)]) nodes)
  ++ [User EmptyString].
Proof.
  induction nodes as [|h rest IH]; intros visits Hne Hlen Hok; [contradiction|].
  destruct visits as [|v visits]; [discriminate|].
  apply Forall_cons in Hok as [(Hc & r & more & Hr) Hok].
  simpl. rewrite Hc, Hr. simpl. unfold command. simpl.
  unfold nodeTarget. f_equal; [destruct (overrideClusterHost cfg); reflexivity|].
  f_equal. destruct rest as [|h' rest']; [reflexivity|].
  rewrite IH; [reflexivity|discriminate|simpl in *; lia|exact Hok].
Qed.

(** With at least one master, and a reply for every command sent, the
    traversal of [flushDbKeys] calls the user callback exactly once. *)
Lemma flushMasters_one_callback cfg dflt dbIndex nodes : forall visits,
  nodes <> [] ->
  (length nodes <= length visits)%nat ->
  Forall (fun v => nodeReplies v <> []) visits ->
  length (userCalls (flushMasters cfg dflt dbIndex flushCallback nodes visits)) = 1%nat.
Proof.
  induction nodes as [|h rest IH]; intros visits Hne Hlen Hok; [contradiction|].
  destruct visits as [|v visits]; [simpl in Hlen; lia|].
  apply Forall_cons in Hok as [Hr Hok].
  simpl. destruct (overrideClusterHost cfg); simpl;
    (destruct (Text.isEmpty (connectError v)); simpl; [|reflexivity]);
    (destruct (nodeReplies v) as [|[r err] more]; [contradiction|]); simpl;
    (destruct (Text.isEmpty err); simpl; [|reflexivity]);
    (destruct rest as [|h' rest']; [reflexivity|]);
    apply IH; try discriminate; simpl in *; try lia; exact Hok.
Qed.

(** C10: in cluster mode [flushDbKeys] sends FLUSHDB through [command]
    called without a database, hence for the default database [dflt] of
    [command] and not for dbIndex.  When every one of the masters is
    reached and flushed, the trace is the reconnection to each master
    followed by that FLUSHDB, in list order, and then the callback with
    the empty text: one FLUSHDB per master, the same for every dbIndex.
    Whatever happens at the masters, the run for dbIndex and the run for
    another index agree but for the text handed to the callback, every
    command sent is that FLUSHDB, and the texts of the callback are the
    three reports, of which only the cannot-flush text shows dbIndex.
    In the other modes a connected Connection sends FLUSHDB for
    dbIndex. *)
Theorem C10_cluster_flush_ignores_dbIndex cfg dflt server dbIndex dbIndex'
    errs nodes oks visits reply link :
  getMasterNodes Cluster server = Some (errs, nodes) ->
  nodes <> [] ->
  length oks = length nodes ->
  Forall visitOk oks ->
  flushDbKeys cfg dflt Cluster server dbIndex flushCallback oks reply link =
    inr (map EmitError errs ++
         concat (map (flushedTrace cfg dflt) nodes) ++ [User EmptyString]) /\
  (exists t t',
     flushDbKeys cfg dflt Cluster server dbIndex flushCallback visits reply link
       = inr t /\
     flushDbKeys cfg dflt Cluster server dbIndex' flushCallback visits reply link
       = inr t' /\
     Forall (fun c => c = flushCommand dflt) (commandsSent t) /\
     map forgetText t = map forgetText t' /\
     Forall (flushReport cfg dbIndex) (userCalls t)) /\
  (exists t,
     flushDbKeys cfg dflt Normal server dbIndex flushCallback visits reply Linked
       = inr t /\
     commandsSent t = [flushCommand dbIndex]) /\
  (exists t,
     flushDbKeys cfg dflt Sentinel server dbIndex flushCallback visits reply Linked
       = inr t /\
     commandsSent t = [flushCommand dbIndex]).
Proof.
  intros Hnodes Hne Hlen Hok.
  split; [|split; [|split]].
  - unfold flushDbKeys. simpl bool_decide. cbv iota. rewrite Hnodes.
    rewrite (flushMasters_all_ok cfg dflt dbIndex nodes oks Hne Hlen Hok).
    reflexivity.
  - unfold flushDbKeys. simpl bool_decide. cbv iota. rewrite Hnodes.
    eexists _, _. split; [reflexivity|]. split; [reflexivity|].
    destruct (flushMasters_dbIndex cfg dflt dbIndex dbIndex' visits nodes)
      as (H1 & H2 & H3).
    assert (Hc : commandsSent (U := string) (map EmitError errs) = [])
      by (clear; induction errs; simpl; auto).
    assert (Hu : userCalls (U := string) (map EmitError errs) = [])
      by (clear; induction errs; simpl; auto).
    unfold commandsSent in *. unfold userCalls in *.
    rewrite !omap_app, Hc, Hu, !map_app, H2. auto.
  - eexists. split; [reflexivity|]. simpl.
    destruct reply as [[r err]|]; [|reflexivity].
    destruct (Text.isEmpty err); reflexivity.
  - eexists. split; [reflexivity|]. simpl.
    destruct reply as [[r err]|]; [|reflexivity].
    destruct (Text.isEmpty err); reflexivity.
Qed.

Lemma C10_witness :
  flushDbKeys cfgExample (-1) Cluster
    (clusterServer (inr (slotsReply threeMasters))) 3 flushCallback
    [okVisit; okVisit; okVisit] None Linked =
    inr (map EmitError [] ++
         concat (map (flushedTrace cfgExample (-1)) threeMasters) ++
         [User EmptyString]) /\
  (exists t t',
     flushDbKeys cfgExample (-1) Cluster
       (clusterServer (inr (slotsReply threeMasters))) 3 flushCallback
       [okVisit; mkVisit EmptyString [(RNull, "timeout")]] None Linked = inr t /\
     flushDbKeys cfgExample (-1) Cluster
       (clusterServer (inr (slotsReply threeMasters))) 7 flushCallback
       [okVisit; mkVisit EmptyString [(RNull, "timeout")]] None Linked = inr t' /\
     Forall (fun c => c = flushCommand (-1)) (commandsSent t) /\
     map forgetText t = map forgetText t' /\
     Forall (flushReport cfgExample 3) (userCalls t)) /\
  (exists t,
     flushDbKeys cfgExample (-1) Normal
       (clusterServer (inr (slotsReply threeMasters))) 3 flushCallback
       [okVisit; mkVisit EmptyString [(RNull, "timeout")]] None Linked = inr t /\
     commandsSent t = [flushCommand 3]) /\
  (exists t,
     flushDbKeys cfgExample (-1) Sentinel
       (clusterServer (inr (slotsReply threeMasters))) 3 flushCallback
       [okVisit; mkVisit EmptyString [(RNull, "timeout")]] None Linked = inr t /\
     commandsSent t = [flushCommand 3]).
Proof.
  apply (C10_cluster_flush_ignores_dbIndex cfgExample (-1)
           (clusterServer (inr (slotsReply threeMasters))) 3 7 [] threeMasters
           [okVisit; okVisit; okVisit]
           [okVisit; mkVisit EmptyString [(RNull, "timeout")]] None Linked).
  - reflexivity.
  - discriminate.
  - reflexivity.
  - repeat constructor; eexists _, _; reflexivity.
Defined.

(** ** Deferred dispatch *)

Import Dispatch.

(** The signals of [auth] do not depend on the mode and server
    information the Connection had before. *)
Lemma auth_signals_indep cfg server mode0 info0 :
  (auth cfg server mode0 info0).1.1 = authSignals cfg server.
Proof.
  unfold authSignals, auth.
  destruct (if Config.useAuth cfg then _ else _); [reflexivity|].
  destruct (server ["PING"]); [reflexivity|].
  destruct (negb _); [reflexivity|].
  destruct (server ["INFO"; "ALL"]); [reflexivity|].
  destruct (clusterMode _); [reflexivity|].
  destruct (sentinelMode _); reflexivity.
Qed.

Lemma authSignals_cases cfg server :
  let sigs := authSignals cfg server in
  (exists logs, sigs = map sig_log logs ++ [sig_authOk; sig_connected]) \/
  (exists logs h p, sigs = map sig_log logs ++ [sig_reconnectTo h p]) \/
  (exists logs c s, sigs = map sig_log logs ++ [sig_error (String c s)]) \/
  (exists logs c s a,
     sigs = map sig_log logs ++ [sig_error (String c s); sig_authError a]) \/
  (exists logs c s a,
     sigs = map sig_log logs ++ [sig_authError a; sig_error (String c s)]).
Proof.
  cbv zeta. unfold authSignals, auth, authSentinel, authCatch.
  assert (Hcatch : forall logs e, exists logs' c s a,
    map sig_log logs ++
      [sig_error ("Connection error on AUTH: " +:+ what e);
       sig_authError "Connection error on AUTH"] =
    map sig_log logs' ++ [sig_error (String c s); sig_authError a]).
  { intros logs e. eexists logs, _, _, _. reflexivity. }
  destruct (if Config.useAuth cfg then _ else _) as [e|_].
  { right; right; right; left. apply (Hcatch ["AUTH"]). }
  destruct (server ["PING"]) as [e|testResult].
  { right; right; right; left. apply (Hcatch ["AUTH"]). }
  destruct (negb _).
  { right; right; right; right. exists ["AUTH"]. simpl. eauto. }
  destruct (server ["INFO"; "ALL"]) as [e|infoResult].
  { right; right; right; left. apply (Hcatch ["AUTH"]). }
  destruct (clusterMode _).
  { left. exists ["AUTH"; "Cluster detected"; "Connected"]. reflexivity. }
  destruct (sentinelMode _).
  2:{ left. exists ["AUTH"; "Connected"]. reflexivity. }
  cbn [fst].
  destruct (server ["SENTINEL"; "masters"]) as [e|mastersResult].
  { right; right; right; left.
    apply (Hcatch ["AUTH"; "Sentinel detected. Requesting master node..."]). }
  destruct (negb _).
  { right; right; left.
    exists ["AUTH"; "Sentinel detected. Requesting master node..."]. simpl. eauto. }
  destruct (Variant.toList _) as [|first others].
  { right; right; left.
    exists ["AUTH"; "Sentinel detected. Requesting master node..."]. simpl. eauto. }
  destruct (_ <? _)%nat.
  { right; right; left.
    exists ["AUTH"; "Sentinel detected. Requesting master node..."]. simpl. eauto. }
  right; left.
  exists ["AUTH"; "Sentinel detected. Requesting master node..."]. simpl. eauto.
Qed.

Lemma emit_logs ssh c logs : foldl (emit ssh) c (map sig_log logs) = c.
Proof. induction logs; simpl; auto. Qed.

Lemma succeeded_logs logs t : succeeded (map sig_log logs ++ t) = succeeded t.
Proof.
  unfold succeeded. rewrite existsb_app.
  replace (existsb _ (map sig_log logs)) with false; [reflexivity|].
  induction logs; simpl; auto.
Qed.

Lemma redirected_logs logs t : redirected (map sig_log logs ++ t) = redirected t.
Proof.
  unfold redirected. rewrite existsb_app.
  replace (existsb _ (map sig_log logs)) with false; [reflexivity|].
  induction logs; simpl; auto.
Qed.

Lemma onConnected_unfold ssh server c :
  exists mode info,
    onConnected ssh server c =
    foldl (emit ssh) (withAuth mode info c) (authSignals (m_config c) server).
Proof.
  unfold onConnected.
  rewrite <- (auth_signals_indep (m_config c) server (m_currentMode c)
                (m_serverInfo c)).
  destruct (auth _ _ _ _) as [[sigs mode] info]. eauto.
Qed.

(** One run of [auth] while the closure of [cmd] waits: [authOk] makes the
    Deferred follow the future of the command, now with the transporter; a
    redirection leaves everything waiting; anything else cancels it. *)
Lemma onConnected_waiting ssh cfg cmd server c :
  Cmd.isValid cmd = true ->
  waiting cfg cmd c ->
  let sigs := authSignals cfg server in
  let c' := onConnected ssh server c in
  (succeeded sigs = true ->
     deferreds c' = [CompletedWith (CommandFuture cmd)] /\ worker c' = [cmd]) /\
  (redirected sigs = true -> waiting cfg cmd c') /\
  (succeeded sigs = false -> redirected sigs = false ->
     deferreds c' = [Cancelled] /\ worker c' = []).
Proof.
  intros Hcmd Hw. cbv zeta.
  destruct (onConnected_unfold ssh server c) as (mode & info & ->).
  destruct c as [cfg0 db m0 ac st i0 run ctx defs wk unc].
  unfold waiting in Hw. simpl in Hw.
  destruct Hw as (-> & -> & -> & -> & -> & ->). simpl m_config.
  unfold Cmd.isValid in Hcmd.
  destruct cmd as [[|a parts] dbi hp]; [discriminate|clear Hcmd].
  destruct (authSignals_cases cfg server)
    as [(logs & ->)|[(logs & h & p & ->)|[(logs & ch & s & ->)
        |[(logs & ch & s & e & ->)|(logs & ch & s & e & ->)]]]];
    rewrite succeeded_logs, redirected_logs, foldl_app, emit_logs;
    (split; [|split]); try discriminate; intros; try (split; reflexivity).
  unfold waiting. simpl. auto 10.
Qed.

Lemma connectSequence_waiting ssh cfg cmd sentinels : forall c,
  Cmd.isValid cmd = true ->
  waiting cfg cmd c ->
  Forall (fun s => redirected (authSignals cfg s) = true) sentinels ->
  waiting cfg cmd (connectSequence ssh sentinels c).
Proof.
  induction sentinels as [|s l IH]; intros c Hcmd Hw Hall; [exact Hw|].
  apply Forall_cons in Hall as [Hs Hall]. simpl.
  apply IH; [exact Hcmd| |exact Hall].
  apply (onConnected_waiting ssh cfg cmd s c Hcmd Hw), Hs.
Qed.

Lemma onErrorOccurred_waiting ssh cfg cmd err c :
  waiting cfg cmd c ->
  deferreds (onErrorOccurred ssh err c) = [Cancelled] /\
  worker (onErrorOccurred ssh err c) = [].
Proof.
  destruct c as [cfg0 db m0 ac st i0 run ctx defs wk unc].
  unfold waiting. simpl. intros (-> & -> & -> & -> & -> & ->).
  split; reflexivity.
Qed.

(** C8: on a Connection created with autoConnect = true, a valid command
    issued before connect() is deferred: [runCommand] returns the future
    of a pending Deferred and starts the transporter.  When the
    connect-and-auth sequence (any number of sentinel redirections, then
    a last run of [auth]) ends with authOk, the Deferred follows the
    future of the command, which is then with the transporter; when it
    ends otherwise, or the transporter reports an error, the Deferred is
    cancelled and the command is never sent. *)
Theorem C8_autoconnect_future ssh cfg cmd sentinels final :
  Config.isValid cfg = true ->
  (useSshTunnel cfg = true -> ssh = true) ->
  Cmd.isValid cmd = true ->
  Forall (fun s => redirected (authSignals cfg s) = true) sentinels ->
  redirected (authSignals cfg final) = false ->
  exists c1,
    runCommand ssh cmd (newConnection cfg true) = (inr (DeferredFuture 0), c1) /\
    deferreds c1 = [Pending] /\ worker c1 = [] /\
    let c2 := connectSequence ssh sentinels c1 in
    let c3 := onConnected ssh final c2 in
    (deferreds c3 = [CompletedWith (CommandFuture cmd)] <->
     succeeded (authSignals cfg final) = true) /\
    (succeeded (authSignals cfg final) = true -> worker c3 = [cmd]) /\
    (succeeded (authSignals cfg final) = false ->
     deferreds c3 = [Cancelled] /\ worker c3 = []) /\
    (forall err,
       deferreds (onErrorOccurred ssh err c2) = [Cancelled] /\
       worker (onErrorOccurred ssh err c2) = []).
Proof.
  intros Hcfg Hssh Hcmd Hsent Hfinal.
  assert (Hrun : exists c1,
    runCommand ssh cmd (newConnection cfg true) = (inr (DeferredFuture 0), c1) /\
    waiting cfg cmd c1).
  { unfold runCommand, connect, newConnection, isConnected. simpl.
    rewrite Hcmd, Hcfg. simpl.
    destruct (useSshTunnel cfg) eqn:Et; simpl.
    - rewrite (Hssh eq_refl). simpl. eexists. split; [reflexivity|].
      unfold waiting. simpl. auto 10.
    - eexists. split; [reflexivity|]. unfold waiting. simpl. auto 10. }
  destruct Hrun as (c1 & Hrun & Hw). exists c1.
  split; [exact Hrun|]. split; [apply Hw|]. split; [apply Hw|]. cbv zeta.
  pose proof (connectSequence_waiting ssh cfg cmd sentinels c1 Hcmd Hw Hsent) as Hw2.
  destruct (onConnected_waiting ssh cfg cmd final _ Hcmd Hw2) as (Hok & _ & Hfail).
  split; [|split; [|split]].
  - split.
    + intros Hd. destruct (succeeded (authSignals cfg final)); [reflexivity|].
      destruct (Hfail eq_refl Hfinal) as [Hc _]. rewrite Hc in Hd. discriminate.
    + intros Hs. apply Hok, Hs.
  - intros Hs. apply Hok, Hs.
  - intros Hs. apply Hfail; assumption.
  - intros err. apply (onErrorOccurred_waiting ssh cfg cmd err _ Hw2).
Qed.

Lemma C8_witness :
  exists c1,
    runCommand true GET_foo (newConnection cfgExample true)
      = (inr (DeferredFuture 0), c1) /\
    deferreds c1 = [Pending] /\ worker c1 = [] /\
    let c2 := connectSequence true [sentinelServer "10.0.0.5"] c1 in
    let c3 := onConnected true standaloneServer c2 in
    (deferreds c3 = [CompletedWith (CommandFuture GET_foo)] <->
     succeeded (authSignals cfgExample standaloneServer) = true) /\
    (succeeded (authSignals cfgExample standaloneServer) = true ->
     worker c3 = [GET_foo]) /\
    (succeeded (authSignals cfgExample standaloneServer) = false ->
     deferreds c3 = [Cancelled] /\ worker c3 = []) /\
    (forall err,
       deferreds (onErrorOccurred true err c2) = [Cancelled] /\
       worker (onErrorOccurred true err c2) = []).
Proof.
  apply (C8_autoconnect_future true cfgExample GET_foo
           [sentinelServer "10.0.0.5"] standaloneServer).
  - reflexivity.
  - reflexivity.
  - reflexivity.
  - repeat constructor.
  - reflexivity.
Defined.

(* ===================================================================== *)
(** * Further properties                                                  *)
(* ===================================================================== *)

(** ** SCAN chains *)

Lemma isValid_iscan cmd :
  Cmd.isValid cmd = true ->
  Cmd.isValid (Scan.make (<[0%nat := "iscan"]> (Cmd.getSplitedRepresentattion cmd)))
  = true.
Proof.
  unfold Cmd.isValid, Cmd.getSplitedRepresentattion. simpl.
  destruct (m_commandWithArguments cmd); [discriminate|reflexivity].
Qed.

(** The command that follows a reply is valid when the one before is. *)
Lemma onScanReply_valid cmd result incr r e :
  Cmd.isValid cmd = true ->
  match onScanReply cmd result incr r e with
  | Retry c' _ _ | Next c' _ _ => Cmd.isValid c' = true
  | Deliver _ _ => True
  end.
Proof.
  intros Hv. unfold onScanReply.
  destruct (Resp.isErrorMessage r).
  - destruct (_ && _); [apply isValid_iscan, Hv|exact I].
  - destruct (negb (Text.isEmpty e)); [exact I|].
    destruct (negb (Resp.isValidScanResponse r)).
    + destruct (if incr then [] else result); exact I.
    + destruct (_ <=? 0); [exact I|]. apply isValid_setCursor, Hv.
Qed.

Lemma processScanCommand_shape {U} (callback : QVariant -> string -> Trace U) replies :
  forall cmd result incr,
  exists sent,
    chainShape callback (processScanCommand cmd callback result incr replies) sent /\
    (length sent <= S (length replies))%nat.
Proof.
  induction replies as [|[r e] replies IH]; intros cmd result incr; simpl;
    unfold runCommandConnected.
  - destruct (Cmd.isValid cmd).
    + exists [cmd]. split; [left; reflexivity|simpl; lia].
    + exists []. split; [right; right; reflexivity|simpl; lia].
  - destruct (Cmd.isValid cmd).
    2:{ exists []. split; [right; right; reflexivity|simpl; lia]. }
    destruct (onScanReply cmd result incr r e) as [c' res' i'|c' res' i'|v err].
    + destruct (IH c' res' i') as (sent & Hs & Hl). exists (cmd :: sent).
      split; [|simpl; lia].
      destruct Hs as [->|[(v & err & ->)| ->]];
        [left|right; left; exists v, err|right; right]; reflexivity.
    + destruct (IH c' res' i') as (sent & Hs & Hl). exists (cmd :: sent).
      split; [|simpl; lia].
      destruct Hs as [->|[(v & err & ->)| ->]];
        [left|right; left; exists v, err|right; right]; reflexivity.
    + exists [cmd]. split; [right; left; exists v, err; reflexivity|simpl; lia].
Qed.

(** X1: whatever the server answers, a chain of [processScanCommand]
    sends at most one command more than it got replies, calls its
    callback at most once, and does nothing after the callback. *)
Theorem scan_chain_shape {U} (callback : QVariant -> string -> Trace U) replies
    cmd result incr :
  exists sent,
    chainShape callback (processScanCommand cmd callback result incr replies) sent /\
    (length sent <= S (length replies))%nat.
Proof. apply processScanCommand_shape. Qed.

(** X2: once the callback of a chain has run, replies that arrive later
    change nothing. *)
Theorem scan_chain_ignores_later_replies cmd result incr replies extra :
  userCalls (processScanCommand cmd collectionCallback result incr replies) <> [] ->
  processScanCommand cmd collectionCallback result incr (replies ++ extra) =
  processScanCommand cmd collectionCallback result incr replies.
Proof.
  revert cmd result incr.
  induction replies as [|[r e] replies IH]; intros cmd result incr; simpl;
    unfold runCommandConnected.
  - destruct (Cmd.isValid cmd); simpl; intros H; contradiction.
  - destruct (Cmd.isValid cmd); [|reflexivity].
    destruct (onScanReply cmd result incr r e) as [c' res' i'|c' res' i'|v err];
      simpl; intros H; f_equal; auto.
Qed.

Lemma scan_chain_ignores_later_replies_witness :
  processScanCommand SCAN0 collectionCallback [] false
    ([scanReply 0 ["a"]] ++ [scanReply 7 ["b"]]) =
  processScanCommand SCAN0 collectionCallback [] false [scanReply 0 ["a"]].
Proof.
  apply (scan_chain_ignores_later_replies SCAN0 [] false [scanReply 0 ["a"]]
           [scanReply 7 ["b"]]).
  discriminate.
Defined.

(** X3: in incremental mode a first reply with cursor 0 is delivered as
    the last batch: one call, with the items of the reply, an empty error
    and isLast = true. *)
Theorem incremental_single_batch cmd last extra :
  Scan.isValidScanCommand cmd = true ->
  validScanReply last -> Resp.getCursor last.1 = 0 ->
  retrieveCollectionIncrementally cmd incrementalCallback (last :: extra) =
  inr [AddCommandToWorker cmd;
       User (QList (Resp.getCollection last.1), EmptyString, true)].
Proof.
  intros Hcmd [Hv He] H0. destruct last as [r e]. simpl in *. subst e.
  unfold retrieveCollectionIncrementally. rewrite Hcmd. simpl.
  unfold runCommandConnected. rewrite (isValidScanCommand_isValid _ Hcmd).
  rewrite onScanReply_last by assumption. reflexivity.
Qed.

Lemma incremental_single_batch_witness :
  retrieveCollectionIncrementally SCAN0 incrementalCallback
    (scanReply 0 ["c"] :: [scanReply 5 ["d"]]) =
  inr [AddCommandToWorker SCAN0;
       User (QList (Resp.getCollection (scanReply 0 ["c"]).1), EmptyString, true)].
Proof.
  apply (incremental_single_batch SCAN0 (scanReply 0 ["c"]) [scanReply 5 ["d"]]).
  - reflexivity.
  - split; reflexivity.
  - reflexivity.
Defined.

(** X4: in incremental mode a first reply that fails, an error reply with
    a text that does not lead to the ISCAN replay or a transport error,
    gives exactly one call, with isLast = true. *)
Theorem incremental_failure_is_last cmd rp extra :
  Scan.isValidScanCommand cmd = true ->
  failedReply cmd rp ->
  exists c err,
    retrieveCollectionIncrementally cmd incrementalCallback (rp :: extra) =
    inr [AddCommandToWorker cmd; User (c, err, true)].
Proof.
  intros Hcmd Hf. destruct rp as [r e].
  unfold retrieveCollectionIncrementally. rewrite Hcmd. simpl.
  unfold runCommandConnected. rewrite (isValidScanCommand_isValid _ Hcmd).
  unfold onScanReply. fold (Scan.name cmd).
  destruct Hf as [(He & Hno & Ht)|(He & Ht)]; simpl in *; rewrite He.
  - rewrite Hno.
    destruct (String.eqb _ END_OF_COLLECTION); [eauto|].
    destruct (Variant.toString (Resp.value r)); [contradiction|]. simpl. eauto.
  - destruct e as [|ch e]; [contradiction|]. simpl negb. cbv iota.
    destruct (String.eqb _ END_OF_COLLECTION); simpl; eauto.
Qed.

Lemma incremental_failure_is_last_witness :
  exists c err,
    retrieveCollectionIncrementally SCAN0 incrementalCallback
      ((RNull, "Connection timeout") :: []) =
    inr [AddCommandToWorker SCAN0; User (c, err, true)].
Proof.
  apply (incremental_failure_is_last SCAN0 (RNull, "Connection timeout") []).
  - reflexivity.
  - right. split; [reflexivity|discriminate].
Defined.

(** The aggregate continuation stopped by a reply that is no SCAN
    response: what was accumulated is delivered, without an error. *)
Lemma aggregate_chain_malformed {U} (callback : QVariant -> string -> Trace U) pre :
  forall cmd acc bad extra,
  Cmd.isValid cmd = true ->
  Forall (fun rp => validScanReply rp /\ Resp.getCursor rp.1 <> 0) pre ->
  malformedReply bad ->
  exists sent,
    processScanCommand cmd callback acc false (pre ++ bad :: extra) =
    map AddCommandToWorker sent ++
    callback (match acc ++ batches pre with
              | [] => QNull
              | items => QList items
              end) EmptyString.
Proof.
  induction pre as [|[r e] pre IH]; intros cmd acc [rb eb] extra Hcmd Hpre
    (Hb1 & Hb2 & Hb3); simpl in *; subst.
  - exists [cmd]. unfold runCommandConnected. rewrite Hcmd.
    unfold onScanReply. rewrite Hb1, Hb2. simpl.
    unfold batches. simpl. rewrite app_nil_r. destruct acc; reflexivity.
  - apply Forall_cons in Hpre as [[[Hv He] Hc] Hpre]. simpl in *. subst.
    destruct (IH (Scan.setCursor cmd (Resp.getCursor r))
                 (acc ++ Resp.getCollection r) (rb, EmptyString) extra)
      as [sent Hsent]; auto using isValid_setCursor.
    { repeat split; auto. }
    exists (cmd :: sent). unfold runCommandConnected. rewrite Hcmd.
    rewrite onScanReply_more by assumption.
    rewrite Hsent. unfold batches. simpl. rewrite <- app_assoc. reflexivity.
Qed.

(** X5: in aggregate mode a reply that is neither an error nor a SCAN
    response ends the chain as a success: the callback receives the
    batches collected so far (the null variant when there is none) and an
    empty error. *)
Theorem aggregate_truncated_chain_is_success cmd pre bad extra :
  Scan.isValidScanCommand cmd = true ->
  Forall (fun rp => validScanReply rp /\ Resp.getCursor rp.1 <> 0) pre ->
  malformedReply bad ->
  exists t,
    retrieveCollection cmd collectionCallback (pre ++ bad :: extra) = inr t /\
    userCalls t = [(match batches pre with
                    | [] => QNull
                    | items => QList items
                    end, EmptyString)].
Proof.
  intros Hcmd Hpre Hbad. unfold retrieveCollection. rewrite Hcmd. simpl.
  destruct (aggregate_chain_malformed collectionCallback pre cmd [] bad extra)
    as [sent Hsent]; auto using isValidScanCommand_isValid.
  eexists. split; [reflexivity|].
  unfold DEFAULT_incrementalProcessing. rewrite Hsent.
  rewrite userCalls_app, userCalls_sent. reflexivity.
Qed.

Lemma aggregate_truncated_chain_is_success_witness :
  exists t,
    retrieveCollection SCAN0 collectionCallback
      ([scanReply 48 ["a"; "b"]] ++ (RArray [], EmptyString) :: []) = inr t /\
    userCalls t = [(match batches [scanReply 48 ["a"; "b"]] with
                    | [] => QNull
                    | items => QList items
                    end, EmptyString)].
Proof.
  apply (aggregate_truncated_chain_is_success SCAN0 [scanReply 48 ["a"; "b"]]
           (RArray [], EmptyString) []).
  - reflexivity.
  - repeat constructor; simpl; discriminate.
  - repeat split; reflexivity.
Defined.

Lemma disabled_is_error r :
  Resp.isDisabledCommandErrorMessage r = true -> Resp.isErrorMessage r = true.
Proof. destruct r; simpl; congruence. Qed.

(** X6: when the first reply to a command named scan is a
    disabled-command error, the chain replayed as ISCAN delivers what a
    chain without that error delivers: one call with all batches of the
    replies that follow, in order, and an empty error. *)
Theorem iscan_fallback_delivers_all cmd r e pre last :
  Scan.isValidScanCommand cmd = true ->
  Scan.name cmd = "scan" ->
  Resp.isDisabledCommandErrorMessage r = true ->
  Forall (fun rp => validScanReply rp /\ Resp.getCursor rp.1 <> 0) pre ->
  validScanReply last -> Resp.getCursor last.1 = 0 ->
  exists t,
    retrieveCollection cmd collectionCallback ((r, e) :: pre ++ [last]) = inr t /\
    userCalls t = [(QList (batches (pre ++ [last])), EmptyString)].
Proof.
  intros Hcmd Hn Hd Hpre Hlast H0. unfold retrieveCollection. rewrite Hcmd. simpl.
  eexists. split; [reflexivity|].
  unfold runCommandConnected. rewrite (isValidScanCommand_isValid _ Hcmd).
  unfold onScanReply. fold (Scan.name cmd).
  rewrite (disabled_is_error _ Hd), Hn, Hd. simpl.
  edestruct (aggregate_chain collectionCallback pre
               (Scan.make (<[0%nat := "iscan"]> (Cmd.getSplitedRepresentattion cmd)))
               [] last) as [sent Hsent]; eauto.
  { apply isValid_iscan, isValidScanCommand_isValid, Hcmd. }
  unfold DEFAULT_incrementalProcessing. rewrite Hsent.
  rewrite userCalls_app, userCalls_sent. reflexivity.
Qed.

Lemma iscan_fallback_delivers_all_witness :
  exists t,
    retrieveCollection SCAN0 collectionCallback
      ((UNKNOWN_SCAN, EmptyString) :: [scanReply 3 ["x"]] ++ [scanReply 0 ["y"]])
      = inr t /\
    userCalls t =
      [(QList (batches ([scanReply 3 ["x"]] ++ [scanReply 0 ["y"]])), EmptyString)].
Proof.
  apply (iscan_fallback_delivers_all SCAN0 UNKNOWN_SCAN EmptyString
           [scanReply 3 ["x"]] (scanReply 0 ["y"])).
  - reflexivity.
  - reflexivity.
  - reflexivity.
  - repeat constructor; simpl; discriminate.
  - split; reflexivity.
  - reflexivity.
Defined.

(** ** ServerInfo::fromString *)

Lemma toInt_range s : Text.INT_MIN <= Text.toInt s <= Text.INT_MAX.
Proof.
  unfold Text.toInt, Text.INT_MIN, Text.INT_MAX.
  destruct (Text.parse_decimal _) as [z|]; [|lia].
  destruct (_ && _) eqn:E; [|lia].
  apply andb_true_iff in E as [H1 H2]. lia.
Qed.

Lemma globalMatch_count_nonneg info m :
  m ∈ Re.globalMatch info -> 0 <= Text.toInt m.2.
Proof.
  unfold Re.globalMatch. rewrite list_elem_of_omap.
  intros (line & _ & Hm). unfold Re.getDbAndKeysCount in Hm.
  apply bind_Some in Hm as (r1 & _ & Hm).
  apply bind_Some in Hm as ([db r2] & _ & Hm).
  apply bind_Some in Hm as (r3 & _ & Hm).
  apply bind_Some in Hm as ([keys r4] & Hk & Hm).
  injection Hm as <-. simpl.
  apply plus_head in Hk as (c & a & -> & Hc). apply toInt_digits_nonneg, Hc.
Qed.

Lemma keyspace_fold_entries (l : list (string * string)) : forall (dbs : gmap Z Z) k v,
  foldl (fun dbs m => <[Text.toInt m.1 := Text.toInt m.2]> dbs) dbs l !! k = Some v ->
  dbs !! k = Some v \/
  exists m, m ∈ l /\ Text.toInt m.1 = k /\ Text.toInt m.2 = v.
Proof.
  induction l as [|m l IH]; intros dbs k v; simpl; [auto|].
  intros H. apply IH in H as [H|(m' & Hin & Hk)].
  - destruct (decide (Text.toInt m.1 = k)) as [E|E].
    + right. exists m. subst k. rewrite lookup_insert_eq in H.
      split; [left|]. split; congruence.
    + rewrite lookup_insert_ne in H by exact E. auto.
  - right. exists m'. split; [right; exact Hin|exact Hk].
Qed.

(** The entries of the keyspace map are decimal [int]s that are not
    negative. *)
Lemma keyspace_entry_bounds info k v :
  Info.keyspace info !! k = Some v ->
  0 <= k <= Text.INT_MAX /\ 0 <= v <= Text.INT_MAX.
Proof.
  unfold Info.keyspace. intros H.
  apply keyspace_fold_entries in H as [H|(m & Hin & <- & <-)].
  - rewrite lookup_empty in H. discriminate.
  - pose proof (toInt_range m.1). pose proof (toInt_range m.2).
    pose proof (globalMatch_index_nonneg _ _ Hin).
    pose proof (globalMatch_count_nonneg _ _ Hin). lia.
Qed.

(** The three forms of the map of databases. *)
Lemma databases_cases info :
  databases (Info.fromString info) = {[0 := 0]} \/
  databases (Info.fromString info) = ∅ \/
  exists last,
    Info.largestObserved info last /\
    forall i, databases (Info.fromString info) !! i =
              if bool_decide (0 <= i <= last)
              then Some (default 0 (Info.keyspace info !! i)) else None.
Proof.
  unfold Info.fromString.
  destruct (bool_decide (_ = Some "cluster")); [left; reflexivity|].
  destruct (bool_decide (_ = Some "sentinel")); [right; left; reflexivity|].
  pose proof (lastKey_spec (Info.keyspace info)) as Hlast.
  destruct (Info.lastKey (Info.keyspace info)) as [last|]; simpl.
  - right; right. destruct Hlast as [Hin Hmax]. exists last.
    assert (Hobs : Info.largestObserved info last).
    { split; [exact Hin|]. intros j Hj. split; [eapply keyspace_keys_nonneg, Hj|].
      apply Hmax, Hj. }
    split; [exact Hobs|]. intros i. apply fillGaps_dense; apply Hobs.
  - right; left. exact Hlast.
Qed.

(** X7: [fromString] never reports a server as both a cluster and a
    sentinel. *)
Theorem mode_flags_exclusive info :
  ~ (clusterMode (Info.fromString info) = true /\
     sentinelMode (Info.fromString info) = true).
Proof.
  intros [Hc Hs]. rewrite (sentinel_not_cluster _ Hs) in Hc. discriminate.
Qed.

(** X8: whatever the INFO text, every database index and every key count
    of the result lies between 0 and the largest [int]. *)
Theorem databases_entries_bounded info k v :
  databases (Info.fromString info) !! k = Some v ->
  0 <= k <= Text.INT_MAX /\ 0 <= v <= Text.INT_MAX.
Proof.
  destruct (databases_cases info) as [-> | [-> | (last & [Hl Hmax] & Hd)]].
  - intros [<- <-]%lookup_singleton_Some. unfold Text.INT_MAX. lia.
  - rewrite lookup_empty. discriminate.
  - rewrite Hd. destruct Hl as [vl Hl].
    pose proof (keyspace_entry_bounds _ _ _ Hl) as [Hkl _].
    case_bool_decide as Hr; [|discriminate]. intros [= <-].
    split; [lia|].
    destruct (Info.keyspace info !! k) as [v'|] eqn:Ek; simpl.
    + apply (keyspace_entry_bounds _ _ _ Ek).
    + unfold Text.INT_MAX. lia.
Qed.

Lemma databases_entries_bounded_witness :
  0 <= 2 <= Text.INT_MAX /\ 0 <= 1 <= Text.INT_MAX.
Proof.
  apply (databases_entries_bounded INFO_S1 2 1). reflexivity.
Defined.

(** X9: in every mode the databases of the result form a range that
    starts at 0: with an index, every smaller index is present. *)
Theorem databases_contiguous info i j :
  is_Some (databases (Info.fromString info) !! j) ->
  0 <= i <= j ->
  is_Some (databases (Info.fromString info) !! i).
Proof.
  destruct (databases_cases info) as [-> | [-> | (last & _ & Hd)]].
  - intros [v [<- _]%lookup_singleton_Some] Hi.
    replace i with 0 by lia. rewrite lookup_singleton_eq. eauto.
  - rewrite lookup_empty. intros [v H]. discriminate.
  - rewrite !Hd. case_bool_decide as Hj; [|intros [v H]; discriminate].
    intros _ Hi. rewrite bool_decide_eq_true_2 by lia. eauto.
Qed.

Lemma databases_contiguous_witness :
  is_Some (databases (Info.fromString INFO_S1) !! 1).
Proof.
  apply (databases_contiguous INFO_S1 1 2); [|lia].
  exists 1. reflexivity.
Defined.

Lemma fromString_parsed info :
  parsed (Info.fromString info) = Info.parseSections info.
Proof.
  unfold Info.fromString.
  destruct (bool_decide (_ = Some "cluster")); [reflexivity|].
  destruct (bool_decide (_ = Some "sentinel")); [reflexivity|].
  destruct (Info.lastKey _); reflexivity.
Qed.

Lemma parse_fold_inv (P : ParsedServerInfo * string -> Prop) :
  (forall st line, P st -> P (Info.parseLine st line)) ->
  forall lines st, P st -> P (foldl Info.parseLine st lines).
Proof.
  intros Hstep lines. induction lines as [|l lines IH]; intros st Hst; simpl; auto.
Qed.

Lemma lower_ascii_idem c : Text.lower_ascii (Text.lower_ascii c) = Text.lower_ascii c.
Proof. destruct c as [[] [] [] [] [] [] [] []]; reflexivity. Qed.

Lemma toLower_idem s : Text.toLower (Text.toLower s) = Text.toLower s.
Proof. induction s as [|c s IH]; simpl; [reflexivity|]. rewrite lower_ascii_idem, IH. reflexivity. Qed.

(** X10: the sections of the parsed INFO are named in lower case. *)
Theorem section_names_lower_case info sec :
  is_Some (parsed (Info.fromString info) !! sec) -> Text.toLower sec = sec.
Proof.
  rewrite fromString_parsed. unfold Info.parseSections.
  pose (P := fun st : ParsedServerInfo * string =>
               Text.toLower st.2 = st.2 /\
               forall s, is_Some (st.1 !! s) -> Text.toLower s = s).
  assert (HP : P (foldl Info.parseLine (∅, "unknown") (Re.split Re.CRLF info))).
  { apply (parse_fold_inv P).
    - intros [p cur] line [Hcur Hp]. unfold Info.parseLine, P. simpl in *.
      destruct (String.prefix "#" line); simpl.
      + split; [apply toLower_idem|exact Hp].
      + destruct (Info.splitAtColon line) as [[k v]|]; simpl; [|auto].
        split; [exact Hcur|]. intros s Hs.
        destruct (decide (cur = s)) as [<-|Hne]; [exact Hcur|].
        rewrite lookup_insert_ne in Hs by exact Hne. auto.
    - split; [reflexivity|]. intros s Hs. simpl in Hs.
      rewrite lookup_empty in Hs. destruct Hs; discriminate. }
  apply HP.
Qed.

Lemma section_names_lower_case_witness : Text.toLower "keyspace" = "keyspace".
Proof.
  apply (section_names_lower_case INFO_S1 "keyspace").
  vm_compute. eauto.
Defined.

Lemma splitAtColon_Some line : forall k v,
  Info.splitAtColon line = Some (k, v) ->
  Info.splitAtColon k = None /\ line = k +:+ String ":" v.
Proof.
  induction line as [|c line IH]; intros k v; simpl; [discriminate|].
  destruct (Ascii.eqb_spec c ":") as [->|Hc].
  - intros [= <- <-]. split; reflexivity.
  - destruct (Info.splitAtColon line) as [[k' v']|]; simpl; [|discriminate].
    intros [= <- <-]. destruct (IH k' v' eq_refl) as [Hk ->]. simpl.
    destruct (Ascii.eqb_spec c ":"); [contradiction|]. rewrite Hk. auto.
Qed.

Lemma splitAtColon_round_trip k v :
  Info.splitAtColon k = None ->
  Info.splitAtColon (k +:+ String ":" v) = Some (k, v).
Proof.
  induction k as [|c k IH]; simpl; [reflexivity|].
  destruct (Ascii.eqb c ":"); [discriminate|].
  destruct (Info.splitAtColon k) as [[k' v']|]; simpl; [discriminate|].
  intros _. rewrite IH by reflexivity. reflexivity.
Qed.

(** X11: no property name of the parsed INFO holds a colon: a line is
    split at its first colon. *)
Theorem property_names_without_colon info sec props k :
  parsed (Info.fromString info) !! sec = Some props ->
  is_Some (props !! k) ->
  Info.splitAtColon k = None.
Proof.
  rewrite fromString_parsed. unfold Info.parseSections.
  pose (P := fun st : ParsedServerInfo * string =>
               forall s (ps : gmap string string) key,
                 st.1 !! s = Some ps -> is_Some (ps !! key) ->
                 Info.splitAtColon key = None).
  assert (HP : P (foldl Info.parseLine (∅, "unknown") (Re.split Re.CRLF info))).
  { apply (parse_fold_inv P).
    - intros [p cur] line Hp. unfold Info.parseLine, P. simpl in *.
      destruct (String.prefix "#" line); simpl; [exact Hp|].
      destruct (Info.splitAtColon line) as [[k' v']|] eqn:El; simpl; [|exact Hp].
      intros s ps key Hs Hkey.
      destruct (decide (cur = s)) as [<-|Hne].
      + rewrite lookup_insert_eq in Hs. injection Hs as <-.
        destruct (decide (k' = key)) as [<-|Hk].
        * apply (splitAtColon_Some _ _ _ El).
        * rewrite lookup_insert_ne in Hkey by exact Hk.
          destruct (p !! cur) as [old|] eqn:Eold; simpl in Hkey.
          -- eapply Hp; eauto.
          -- rewrite lookup_empty in Hkey. destruct Hkey; discriminate.
      + rewrite lookup_insert_ne in Hs by exact Hne. eapply Hp; eauto.
    - intros s ps key Hs. simpl in Hs. rewrite lookup_empty in Hs. discriminate. }
  apply HP.
Qed.

(** X12: a line [name:value] whose name holds no colon and that is no
    section header stores the value, colons included, under the name in
    the current section, and leaves every other property and section as
    it was. *)
Theorem property_line_stored p sec k v :
  Info.splitAtColon k = None ->
  String.prefix "#" (k +:+ String ":" v) = false ->
  exists props,
    Info.parseLine (p, sec) (k +:+ String ":" v) = (<[sec := props]> p, sec) /\
    props !! k = Some v /\
    (forall k', k' <> k -> props !! k' = default ∅ (p !! sec) !! k').
Proof.
  intros Hk Hh. unfold Info.parseLine. rewrite Hh, (splitAtColon_round_trip _ _ Hk).
  eexists. split; [reflexivity|]. split; [apply lookup_insert_eq|].
  intros k' Hne. apply lookup_insert_ne. congruence.
Qed.

Lemma property_names_without_colon_witness :
  Info.splitAtColon "redis_version" = None.
Proof.
  apply (property_names_without_colon INFO_S1 "server"
           (default ∅ (parsed (Info.fromString INFO_S1) !! "server"))
           "redis_version").
  - vm_compute. reflexivity.
  - vm_compute. eauto.
Defined.

Lemma property_line_stored_witness :
  exists props,
    Info.parseLine (∅, "server") ("executable" +:+ String ":" "/usr/bin:redis") =
      (<[ "server" := props ]> ∅, "server") /\
    props !! "executable" = Some "/usr/bin:redis" /\
    (forall k', k' <> "executable" ->
                props !! k' = default ∅ ((∅ : ParsedServerInfo) !! "server") !! k').
Proof.
  apply (property_line_stored ∅ "server" "executable" "/usr/bin:redis");
    reflexivity.
Defined.

(** ** Authentication *)

Lemma filter_notifies_logs logs :
  List.filter notifies (map sig_log logs) = [].
Proof. induction logs; simpl; auto. Qed.

(** X13: every run of [auth] emits exactly one of authOk, error and
    reconnectTo, and emits it once: whoever waits for the end of the
    connect sequence is told once per run. *)
Theorem auth_notifies_once cfg server :
  length (List.filter notifies (authSignals cfg server)) = 1%nat.
Proof.
  destruct (authSignals_cases cfg server)
    as [(logs & ->)|[(logs & h & p & ->)|[(logs & ch & s & ->)
        |[(logs & ch & s & e & ->)|(logs & ch & s & e & ->)]]]];
    rewrite List.filter_app, filter_notifies_logs; reflexivity.
Qed.

(** X14: [auth] never brings the Connection back to Normal mode: a
    Connection that was in Cluster or Sentinel mode is not in Normal mode
    after a run of [auth], whatever server answers. *)
Theorem auth_never_resets_mode cfg server mode0 info0 :
  mode0 <> Normal -> (auth cfg server mode0 info0).1.2 <> Normal.
Proof.
  intros Hm. unfold auth.
  destruct (if Config.useAuth cfg then _ else _); [exact Hm|].
  destruct (server ["PING"]); [exact Hm|].
  destruct (negb _); [exact Hm|].
  destruct (server ["INFO"; "ALL"]); [exact Hm|].
  destruct (clusterMode _); [discriminate|].
  destruct (sentinelMode _); [discriminate|exact Hm].
Qed.

Lemma auth_never_resets_mode_witness :
  (auth cfgExample standaloneServer Sentinel noServerInfo).1.2 <> Normal.
Proof.
  apply (auth_never_resets_mode cfgExample standaloneServer Sentinel noServerInfo).
  discriminate.
Defined.

(** X15: when a sentinel names no usable master (its reply to SENTINEL
    masters is no array, is empty, or has a first entry with fewer than 6
    fields), [auth] emits one error, no reconnectTo and no authOk, and
    leaves the Connection in Sentinel mode. *)
Theorem sentinel_without_master cfg server mode0 info0 a testResult infoResult
    mastersResult :
  (if Config.useAuth cfg return Throws Response
   then server ["AUTH"; Config.auth cfg] else inr RNull) = inr a ->
  server ["PING"] = inr testResult ->
  Variant.toByteArray (Resp.value testResult) = "PONG" ->
  server ["INFO"; "ALL"] = inr infoResult ->
  sentinelMode (Info.fromString (Variant.toString (Resp.value infoResult))) = true ->
  server ["SENTINEL"; "masters"] = inr mastersResult ->
  noMaster mastersResult = true ->
  (auth cfg server mode0 info0).1 =
  ([sig_log "AUTH"; sig_log "Sentinel detected. Requesting master node...";
    sig_error (if Resp.isArray mastersResult then SENTINEL_INVALID
               else SENTINEL_NO_MASTER)],
   Sentinel).
Proof.
  intros Hauth Hping Hpong Hinfo Hsent Hmasters Hno.
  unfold auth. rewrite Hauth, Hping, Hpong, Hinfo. simpl negb. cbv iota.
  rewrite (sentinel_not_cluster _ Hsent), Hsent. cbn [fst].
  unfold authSentinel. rewrite Hmasters. unfold noMaster in Hno.
  destruct (Resp.isArray mastersResult); simpl in *; [|reflexivity].
  destruct (Variant.toList (Resp.value mastersResult)) as [|first others];
    [reflexivity|].
  rewrite Hno. reflexivity.
Qed.

Lemma sentinel_without_master_witness :
  (auth cfgExample
     (fun rawCmd =>
        match rawCmd with
        | ["SENTINEL"; "masters"] => inr (RArray [RArray [RBulk "name"; RBulk "m"]])
        | _ => sentinelServer "10.0.0.5" rawCmd
        end) Normal noServerInfo).1 =
  ([sig_log "AUTH"; sig_log "Sentinel detected. Requesting master node...";
    sig_error (if Resp.isArray (RArray [RArray [RBulk "name"; RBulk "m"]])
               then SENTINEL_INVALID else SENTINEL_NO_MASTER)],
   Sentinel).
Proof.
  apply (sentinel_without_master cfgExample _ Normal noServerInfo RNull
           (RStatus "PONG") (RBulk INFO_sentinel)
           (RArray [RArray [RBulk "name"; RBulk "m"]])); reflexivity.
Defined.

(** ** getMasterNodes *)

(** X16: [getMasterNodes] reads one master per entry of CLUSTER SLOTS
    that has at least three fields, in the order of the reply, and skips
    the shorter entries; a master serving several slot ranges is listed
    once per range. *)
Theorem masters_in_reply_order slotsList :
  Forall (fun s => longSlot s = true -> (2 <= length (masterDetails s))%nat)
         slotsList ->
  mastersOfSlots slotsList = Some (map masterOf (List.filter longSlot slotsList)).
Proof.
  induction slotsList as [|s l IH]; intros Hall; [reflexivity|].
  apply Forall_cons in Hall as [Hs Hall]. specialize (IH Hall).
  cbn [mastersOfSlots List.filter].
  destruct (longSlot s) eqn:Hlong.
  - specialize (Hs eq_refl). unfold longSlot in Hlong. apply Nat.leb_le in Hlong.
    rewrite (proj2 (Nat.ltb_ge _ _) Hlong), IH. cbn [map].
    change (masterOf s) with
      (Variant.toString (nth 0 (masterDetails s) QNull),
       Variant.toInt (nth 1 (masterDetails s) QNull)).
    fold (masterDetails s).
    destruct (masterDetails s) as [|h [|p more]]; simpl in Hs; try lia.
    reflexivity.
  - unfold longSlot in Hlong. apply Nat.leb_gt in Hlong.
    rewrite (proj2 (Nat.ltb_lt _ _) Hlong). exact IH.
Qed.

Lemma masters_in_reply_order_witness :
  mastersOfSlots [slotEntry "a" 7000; QList [QInt 0]; slotEntry "a" 7000;
                  slotEntry "b" 7001] =
  Some (map masterOf (List.filter longSlot
          [slotEntry "a" 7000; QList [QInt 0]; slotEntry "a" 7000;
           slotEntry "b" 7001])).
Proof.
  apply masters_in_reply_order.
  repeat (constructor; [intros H; try discriminate H; simpl; lia|]).
  constructor.
Defined.

(** X17: an entry with three fields whose third field holds fewer than
    two values makes [getMasterNodes] read past the end of a list: the
    function gives no list of masters. *)
Theorem masters_abort_on_short_details slotsList :
  Exists (fun s => longSlot s = true /\ (length (masterDetails s) < 2)%nat)
         slotsList ->
  mastersOfSlots slotsList = None.
Proof.
  induction 1 as [s l [Hlong Hshort]|s l _ IH]; simpl.
  - unfold longSlot in Hlong. apply Nat.leb_le in Hlong.
    destruct (Nat.ltb_spec (length (Variant.toList s)) 3); [lia|].
    unfold masterDetails in Hshort.
    destruct (Variant.toList (nth 2 (Variant.toList s) QNull)) as [|h [|p more]];
      simpl in Hshort; try lia; reflexivity.
  - destruct (_ <? 3)%nat; [exact IH|].
    destruct (Variant.toList _) as [|h [|p more]]; try reflexivity.
    rewrite IH. reflexivity.
Qed.

Lemma masters_abort_on_short_details_witness :
  mastersOfSlots [slotEntry "a" 7000; QList [QInt 0; QInt 1; QList [QBytes "b"]]]
  = None.
Proof.
  apply masters_abort_on_short_details.
  right. left. split; [reflexivity|simpl; lia].
Defined.

(** ** Cluster traversals *)

(** X18: with at least one master, and a reply for every command sent,
    the traversal of [flushDbKeys] calls the user callback exactly once,
    whether the masters are reached and flushed or not. *)
Theorem flush_calls_back_once cfg dflt dbIndex nodes visits :
  nodes <> [] ->
  (length nodes <= length visits)%nat ->
  Forall (fun v => nodeReplies v <> []) visits ->
  length (userCalls (flushMasters cfg dflt dbIndex flushCallback nodes visits)) = 1%nat.
Proof. apply flushMasters_one_callback. Qed.

Lemma flush_calls_back_once_witness :
  length (userCalls (flushMasters cfgExample (-1) 3 flushCallback threeMasters
                       [okVisit; mkVisit "refused" [(RNull, EmptyString)]; okVisit]))
  = 1%nat.
Proof.
  apply (flush_calls_back_once cfgExample (-1) 3 threeMasters
           [okVisit; mkVisit "refused" [(RNull, EmptyString)]; okVisit]).
  - discriminate.
  - simpl. lia.
  - repeat constructor; discriminate.
Defined.

(** X19: when every master is reached and flushed, [flushDbKeys] goes to
    each master once, in list order, sends one FLUSHDB at each, and then
    calls the callback once with an empty error. *)
Theorem flush_all_masters cfg dflt dbIndex nodes visits :
  nodes <> [] ->
  length visits = length nodes ->
  Forall visitOk visits ->
  flushMasters cfg dflt dbIndex flushCallback nodes visits =
  concat (map (flushedTrace cfg dflt) nodes) ++ [User EmptyString].
Proof. apply flushMasters_all_ok. Qed.

Lemma flush_all_masters_witness :
  flushMasters cfgExample (-1) 3 flushCallback threeMasters [okVisit; okVisit; okVisit] =
  concat (map (flushedTrace cfgExample (-1)) threeMasters) ++ [User EmptyString].
Proof.
  apply (flush_all_masters cfgExample (-1) 3 threeMasters [okVisit; okVisit; okVisit]).
  - discriminate.
  - reflexivity.
  - repeat constructor; eexists _, _; reflexivity.
Defined.

Lemma reconnects_app {U} (a b : Trace U) :
  reconnects (a ++ b) = reconnects a ++ reconnects b.
Proof. unfold reconnects. apply omap_app. Qed.

Lemma reconnects_sent {U} (sent : list Command) :
  reconnects (U := U) (map AddCommandToWorker sent) = [].
Proof. induction sent; simpl; auto. Qed.

Lemma reconnects_first {U} cfg (h : string * Z) (t : Trace U) :
  reconnects ((if overrideClusterHost cfg then ReconnectTo h.1 h.2
               else ReconnectTo (host cfg) h.2) :: t) =
  nodeTarget cfg h :: reconnects t.
Proof. unfold nodeTarget. destruct (overrideClusterHost cfg); reflexivity. Qed.

Lemma flush_visits_in_list_order_aux cfg dflt dbIndex visits : forall nodes,
  let t := flushMasters cfg dflt dbIndex flushCallback nodes visits in
  reconnects t `prefix_of` map (nodeTarget cfg) nodes /\
  (length (commandsSent t) <= length (reconnects t))%nat.
Proof.
  induction visits as [|v visits IH]; intros [|h rest]; cbv zeta.
  - split; [apply prefix_nil|reflexivity].
  - simpl flushMasters. simpl clusterConnectToNextMasterNode.
    rewrite reconnects_first. simpl map. split.
    + apply prefix_cons, prefix_nil.
    + destruct (overrideClusterHost cfg); simpl; lia.
  - split; [apply prefix_nil|reflexivity].
  - simpl flushMasters. unfold clusterConnectToNextMasterNode.
    rewrite reconnects_first. simpl map.
    assert (Hc : forall t : Trace string,
      commandsSent ((if overrideClusterHost cfg then ReconnectTo h.1 h.2
                     else ReconnectTo (host cfg) h.2) :: t) = commandsSent t)
      by (intros t; destruct (overrideClusterHost cfg); reflexivity).
    rewrite Hc.
    destruct (Text.isEmpty (connectError v)); simpl.
    2:{ split; [apply prefix_cons, prefix_nil|lia]. }
    unfold command. simpl.
    destruct (nodeReplies v) as [|[r err] more]; simpl.
    { split; [apply prefix_cons, prefix_nil|lia]. }
    destruct (Text.isEmpty err); simpl.
    2:{ split; [apply prefix_cons, prefix_nil|lia]. }
    destruct rest as [|h' rest'].
    { simpl. split; [apply prefix_cons, prefix_nil|lia]. }
    destruct (IH (h' :: rest')) as [Hp Hl].
    split; [apply prefix_cons, Hp|simpl in *; lia].
Qed.

(** X20: whatever happens at the masters, the reconnections that the
    traversal of [flushDbKeys] asks of the transporter are, in order, the
    targets of a prefix of the master list: the entries of the list are
    taken in list order, none is skipped and none is taken twice (a
    master that the list holds twice, or two masters with the same
    target, are gone to once per entry).  No more commands are sent than
    reconnections were asked for. *)
Theorem flush_visits_in_list_order cfg dflt dbIndex visits nodes :
  let t := flushMasters cfg dflt dbIndex flushCallback nodes visits in
  reconnects t `prefix_of` map (nodeTarget cfg) nodes /\
  (length (commandsSent t) <= length (reconnects t))%nat.
Proof. apply flush_visits_in_list_order_aux. Qed.

(** X21: when one visit fails after masters that were reached and
    flushed, the traversal of [flushDbKeys] stops there: it has flushed
    the masters before, goes to the failing one, reports the failure to
    the callback and goes to no master after it. *)
Theorem flush_stops_at_first_failure cfg dflt dbIndex done : forall oks h rest bad more,
  length oks = length done ->
  Forall visitOk oks ->
  visitFails bad ->
  flushMasters cfg dflt dbIndex flushCallback (done ++ h :: rest) (oks ++ bad :: more) =
  concat (map (flushedTrace cfg dflt) done) ++ flushFailureTrace cfg dflt dbIndex h bad.
Proof.
  induction done as [|d done IH]; intros oks h rest bad more Hlen Hok Hbad.
  - destruct oks; [|discriminate]. simpl.
    unfold flushFailureTrace, nodeTarget.
    f_equal; [destruct (overrideClusterHost cfg); reflexivity|].
    destruct Hbad as [Hc|(r & err & tl & Hr & He)].
    + destruct (connectError bad); [contradiction|reflexivity].
    + destruct (Text.isEmpty (connectError bad)); [|reflexivity].
      simpl. unfold command. simpl. rewrite Hr.
      destruct err; [contradiction|reflexivity].
  - destruct oks as [|v oks]; [discriminate|].
    apply Forall_cons in Hok as [(Hc & r & tl & Hr) Hok].
    simpl. rewrite Hc, Hr. simpl. unfold command. simpl.
    unfold nodeTarget at 1 2.
    f_equal; [destruct (overrideClusterHost cfg); reflexivity|]. f_equal.
    destruct (done ++ h :: rest) as [|x xs] eqn:E; [destruct done; discriminate|].
    rewrite <- E. apply IH; auto.
Qed.

Lemma flush_stops_at_first_failure_witness :
  flushMasters cfgExample (-1) 3 flushCallback
    ([("10.0.0.1", 7000)] ++ ("10.0.0.2", 7001) :: [("10.0.0.3", 7002)])
    ([okVisit] ++ mkVisit EmptyString [(RNull, "timeout")] :: [okVisit]) =
  concat (map (flushedTrace cfgExample (-1)) [("10.0.0.1", 7000)]) ++
  flushFailureTrace cfgExample (-1) 3 ("10.0.0.2", 7001)
    (mkVisit EmptyString [(RNull, "timeout")]).
Proof.
  apply (flush_stops_at_first_failure cfgExample (-1) 3 [("10.0.0.1", 7000)] [okVisit]
           ("10.0.0.2", 7001) [("10.0.0.3", 7002)]
           (mkVisit EmptyString [(RNull, "timeout")]) [okVisit]).
  - reflexivity.
  - repeat constructor. eexists _, _. reflexivity.
  - right. eexists _, _, _. split; [reflexivity|discriminate].
Defined.

Lemma keyCmd_valid pattern dbIndex scanLimit :
  Scan.isValidScanCommand
    (Cmd.make ["scan"; "0"; "MATCH"; pattern; "COUNT"; Text.number scanLimit] dbIndex)
  = true.
Proof. reflexivity. Qed.

(** How the trace of [getDatabaseKeys] ends. *)
Lemma getDatabaseKeys_shape {U} (K : list string -> string -> Trace U)
    pattern dbIndex scanLimit replies :
  exists sent,
    let t := getDatabaseKeys K pattern dbIndex scanLimit replies in
    t = map AddCommandToWorker sent \/
    t = map AddCommandToWorker sent ++ [Throw "Command is not valid"] \/
    (exists keys, t = map AddCommandToWorker sent ++ K keys EmptyString) \/
    (exists c s, t = map AddCommandToWorker sent ++ K [] (String c s)).
Proof.
  unfold getDatabaseKeys, retrieveCollection. rewrite keyCmd_valid. simpl negb.
  cbv iota.
  match goal with
  | |- context [processScanCommand ?cmd ?cb ?res ?inc replies] =>
      destruct (processScanCommand_shape cb replies cmd res inc)
        as (sent & [H|[(c & err & H)|H]] & _); exists sent; cbv zeta; rewrite H
  end.
  - left. reflexivity.
  - destruct err as [|ch err]; simpl.
    + right; right; left. eauto.
    + right; right; right. eauto.
  - right; left. reflexivity.
Qed.

Lemma keys_visit_in_list_order_aux cfg dbIndex scanLimit pattern visits :
  forall nodes result,
  reconnects (collectMasters cfg dbIndex scanLimit keysCallback pattern result
                nodes visits)
  `prefix_of` map (nodeTarget cfg) nodes.
Proof.
  induction visits as [|v visits IH]; intros [|h rest] result.
  - apply prefix_nil.
  - simpl collectMasters. simpl clusterConnectToNextMasterNode.
    rewrite reconnects_first. apply prefix_cons, prefix_nil.
  - apply prefix_nil.
  - simpl collectMasters. unfold clusterConnectToNextMasterNode.
    rewrite reconnects_first. simpl map. apply prefix_cons.
    destruct (negb (Text.isEmpty (connectError v))); [apply prefix_nil|].
    match goal with
    | |- context [getDatabaseKeys ?K pattern dbIndex scanLimit (nodeReplies v)] =>
        destruct (getDatabaseKeys_shape K pattern dbIndex scanLimit (nodeReplies v))
          as (sent & [H|[H|[(keys & H)|(c & s & H)]]]); cbv zeta in H; rewrite H
    end; rewrite ?reconnects_app, reconnects_sent; simpl;
      try apply prefix_nil.
    destruct rest as [|h' rest']; [apply prefix_nil|]. apply IH.
Qed.

(** X22: whatever happens at the masters, the reconnections that the
    traversal of [getClusterKeys] asks of the transporter are, in order,
    the targets of a prefix of the master list: the entries of the list
    are taken in list order, none is skipped and none is taken twice (a
    master that the list holds twice, or two masters with the same
    target, are gone to once per entry). *)
Theorem keys_visit_in_list_order cfg dbIndex scanLimit pattern visits nodes result :
  reconnects (collectMasters cfg dbIndex scanLimit keysCallback pattern result
                nodes visits)
  `prefix_of` map (nodeTarget cfg) nodes.
Proof. apply keys_visit_in_list_order_aux. Qed.

(** X23: when [overrideClusterHost] is off, both traversals reach every
    master through the configured host; only the port comes from the
    cluster. *)
Theorem tunnel_keeps_configured_host cfg dflt dbIndex scanLimit pattern result
    nodes visits :
  overrideClusterHost cfg = false ->
  Forall (fun hp : string * Z => hp.1 = host cfg)
    (reconnects (flushMasters cfg dflt dbIndex flushCallback nodes visits)) /\
  Forall (fun hp : string * Z => hp.1 = host cfg)
    (reconnects (collectMasters cfg dbIndex scanLimit keysCallback pattern result
                   nodes visits)).
Proof.
  intros Ho.
  assert (Hall : Forall (fun hp : string * Z => hp.1 = host cfg)
                        (map (nodeTarget cfg) nodes)).
  { apply Forall_forall. intros hp [h [-> _]]%list_elem_of_fmap.
    unfold nodeTarget. rewrite Ho. reflexivity. }
  split.
  - destruct (flush_visits_in_list_order_aux cfg dflt dbIndex visits nodes)
      as [[k Hk] _].
    rewrite Hk in Hall. apply Forall_app in Hall as [H _]. exact H.
  - destruct (keys_visit_in_list_order_aux cfg dbIndex scanLimit pattern visits
                nodes result) as [k Hk].
    rewrite Hk in Hall. apply Forall_app in Hall as [H _]. exact H.
Qed.

Lemma tunnel_keeps_configured_host_witness :
  Forall (fun hp : string * Z => hp.1 = host cfgTunnel)
    (reconnects (flushMasters cfgTunnel (-1) 0 flushCallback threeMasters
                   [keysVisit 4 ["a"] ["b"]])) /\
  Forall (fun hp : string * Z => hp.1 = host cfgTunnel)
    (reconnects (collectMasters cfgTunnel 0 10000 keysCallback "*" [] threeMasters
                   [keysVisit 4 ["a"] ["b"]])).
Proof.
  apply (tunnel_keeps_configured_host cfgTunnel (-1) 0 10000 "*" [] threeMasters
           [keysVisit 4 ["a"] ["b"]]).
  reflexivity.
Defined.

(** X24: when every master is reached and its SCAN chain runs to cursor
    0, [getClusterKeys] visits all masters in list order and calls the
    callback once, with the keys of the masters concatenated in visiting
    order and an empty error. *)
Theorem cluster_keys_are_concatenated cfg dbIndex scanLimit pattern nodes :
  forall visits result,
  nodes <> [] ->
  length visits = length nodes ->
  Forall (fun v => connectError v = EmptyString /\ completeChain (nodeReplies v))
         visits ->
  let t := collectMasters cfg dbIndex scanLimit keysCallback pattern result nodes
             visits in
  userCalls t = [(result ++ concat (map nodeKeys visits), EmptyString)] /\
  reconnects t = map (nodeTarget cfg) nodes.
Proof.
  induction nodes as [|h rest IH]; intros visits result Hne Hlen Hok; [contradiction|].
  destruct visits as [|v visits]; [discriminate|].
  apply Forall_cons in Hok as [(Hc & pre & last & Hr & Hpre & Hlast & H0) Hok].
  cbv zeta. simpl collectMasters. unfold clusterConnectToNextMasterNode.
  rewrite reconnects_first.
  assert (Hu : forall t : Trace (list string * string),
    userCalls ((if overrideClusterHost cfg then ReconnectTo h.1 h.2
                else ReconnectTo (host cfg) h.2) :: t) = userCalls t)
    by (intros t; destruct (overrideClusterHost cfg); reflexivity).
  rewrite Hu, Hc. simpl negb. cbv iota.
  unfold getDatabaseKeys, retrieveCollection. rewrite keyCmd_valid. simpl negb.
  cbv iota. unfold DEFAULT_incrementalProcessing. rewrite Hr.
  match goal with
  | |- context [processScanCommand ?cmd ?cb [] false (pre ++ [last])] =>
      destruct (aggregate_chain cb pre cmd [] last) as [sent Hsent]; auto;
        rewrite Hsent
  end.
  rewrite userCalls_app, userCalls_sent, reconnects_app, reconnects_sent.
  simpl. unfold nodeKeys at 1. rewrite Hr.
  destruct rest as [|h' rest'].
  - destruct visits; [|discriminate]. simpl. rewrite app_nil_r. auto.
  - destruct (IH visits (result ++ convertQVariantList (batches (pre ++ [last]))))
      as [Hcalls Hrec]; [discriminate|simpl in *; lia|exact Hok|].
    cbv zeta in Hcalls, Hrec. rewrite Hcalls, Hrec. rewrite <- app_assoc. auto.
Qed.

Lemma cluster_keys_are_concatenated_witness :
  let t := collectMasters cfgExample 0 10000 keysCallback "*" []
             [("10.0.0.1", 7000); ("10.0.0.2", 7001)]
             [keysVisit 4 ["a"] ["b"]; keysVisit 9 ["c"] []] in
  userCalls t =
    [([] ++ concat (map nodeKeys [keysVisit 4 ["a"] ["b"]; keysVisit 9 ["c"] []]),
      EmptyString)] /\
  reconnects t = map (nodeTarget cfgExample) [("10.0.0.1", 7000); ("10.0.0.2", 7001)].
Proof.
  apply (cluster_keys_are_concatenated cfgExample 0 10000 "*"
           [("10.0.0.1", 7000); ("10.0.0.2", 7001)]
           [keysVisit 4 ["a"] ["b"]; keysVisit 9 ["c"] []] []).
  - discriminate.
  - reflexivity.
  - repeat constructor;
      (eexists [_], _; split; [reflexivity|]; repeat constructor; simpl; discriminate).
Defined.





(** ** Deferred dispatch *)

(** X26: [runCommand] hands no command to the transporter while the
    Connection is not connected, whatever the command and the
    autoConnect setting. *)
Theorem not_connected_never_sends ssh cmd c :
  isConnected c = false ->
  worker (runCommand ssh cmd c).2 = worker c.
Proof.
  intros Hc. unfold runCommand, connect. rewrite Hc. simpl.
  destruct (Cmd.isValid cmd); simpl; [|reflexivity].
  destruct (m_autoConnect c); simpl; [|reflexivity].
  unfold isConnected in *. simpl. rewrite Hc.
  destruct (negb (Config.isValid (m_config c))); simpl; [reflexivity|].
  destruct (useSshTunnel (m_config c) && negb ssh); reflexivity.
Qed.

Lemma not_connected_never_sends_witness :
  worker (runCommand true GET_foo (newConnection cfgExample true)).2 =
  worker (newConnection cfgExample true).
Proof.
  apply (not_connected_never_sends true GET_foo (newConnection cfgExample true)).
  reflexivity.
Defined.

Lemma runCommand_connected ssh cmd c :
  isConnected c = true ->
  (runCommand ssh cmd c).2 =
  if Cmd.isValid cmd then withWorker (worker c ++ [cmd]) c else c.
Proof.
  intros Hc. unfold runCommand. rewrite Hc.
  destruct (Cmd.isValid cmd); reflexivity.
Qed.

(** X27: on a connected Connection the valid commands of a sequence
    reach the transporter in the order they are issued, the invalid ones
    are dropped, and no Deferred or hook is created. *)
Theorem connected_commands_in_issue_order ssh cmds : forall c,
  isConnected c = true ->
  worker (runAll ssh cmds c) = worker c ++ List.filter Cmd.isValid cmds /\
  deferreds (runAll ssh cmds c) = deferreds c /\
  contexts (runAll ssh cmds c) = contexts c.
Proof.
  induction cmds as [|cmd cmds IH]; intros c Hc; simpl.
  - rewrite app_nil_r. auto.
  - fold (runAll ssh cmds (runCommand ssh cmd c).2).
    rewrite (runCommand_connected ssh cmd c Hc).
    destruct (Cmd.isValid cmd).
    + destruct (IH (withWorker (worker c ++ [cmd]) c) Hc) as (Hw & Hd & Hx).
      rewrite Hw, Hd, Hx. simpl. rewrite <- app_assoc. auto.
    + apply IH, Hc.
Qed.

Lemma connected_commands_in_issue_order_witness :
  let c := withRunning true (newConnection cfgExample false) in
  worker (runAll true [GET_foo; Cmd.make [] 0; SET_bar] c) =
    worker c ++ List.filter Cmd.isValid [GET_foo; Cmd.make [] 0; SET_bar] /\
  deferreds (runAll true [GET_foo; Cmd.make [] 0; SET_bar] c) = deferreds c /\
  contexts (runAll true [GET_foo; Cmd.make [] 0; SET_bar] c) = contexts c.
Proof.
  apply (connected_commands_in_issue_order true [GET_foo; Cmd.make [] 0; SET_bar]
           (withRunning true (newConnection cfgExample false))).
  reflexivity.
Defined.

(** X28: with autoConnect, a failed [connect] inside [runCommand] (the
    configuration is not valid) throws, but the Deferred and the hook
    created before stay behind: every such call adds one pending
    Deferred and one hook, and sends nothing. *)
Theorem autoconnect_invalid_config_leaves_hook ssh cmd c :
  m_autoConnect c = true ->
  isConnected c = false ->
  Config.isValid (m_config c) = false ->
  Cmd.isValid cmd = true ->
  exists c',
    runCommand ssh cmd c = (inl (mkException "Invalid config detected"), c') /\
    contexts c' = contexts c ++ [RunAfterConnect cmd (length (deferreds c))] /\
    deferreds c' = deferreds c ++ [Pending] /\
    worker c' = worker c /\
    isConnected c' = false.
Proof.
  intros Ha Hc Hcfg Hcmd. unfold runCommand, connect.
  rewrite Hcmd, Hc, Ha. simpl.
  unfold isConnected in *. simpl. rewrite Hc, Hcfg. simpl.
  eexists. split; [reflexivity|]. simpl. auto.
Qed.

Lemma autoconnect_invalid_config_leaves_hook_witness :
  exists c',
    runCommand true GET_foo (newConnection cfgInvalid true) =
      (inl (mkException "Invalid config detected"), c') /\
    contexts c' = contexts (newConnection cfgInvalid true) ++
                  [RunAfterConnect GET_foo
                     (length (deferreds (newConnection cfgInvalid true)))] /\
    deferreds c' = deferreds (newConnection cfgInvalid true) ++ [Pending] /\
    worker c' = worker (newConnection cfgInvalid true) /\
    isConnected c' = false.
Proof.
  apply (autoconnect_invalid_config_leaves_hook true GET_foo
           (newConnection cfgInvalid true)); reflexivity.
Defined.

Lemma cancel_fold msg (hooks : list Hook) : forall ssh c,
  Text.isEmpty msg = false ->
  let c' := foldl (fun c h => runHook ssh c h msg) c hooks in
  deferreds c' =
    foldl (fun l h => <[hookDeferred h := Cancelled]> l) (deferreds c) hooks /\
  worker c' = worker c /\ contexts c' = contexts c /\
  m_dbNumber c' = m_dbNumber c /\ isConnected c' = isConnected c.
Proof.
  induction hooks as [|[cmd d] hooks IH]; intros ssh c Hm; cbv zeta; simpl; [auto 10|].
  rewrite Hm.
  destruct (IH ssh (withDeferreds (<[d:=Cancelled]> (deferreds c)) c) Hm)
    as (H1 & H2 & H3 & H4 & H5).
  cbv zeta in *. rewrite H1, H2, H3, H4, H5. auto 10.
Qed.

Lemma cancel_fold_keeps (hs : list Hook) : forall (l : list Deferred) d,
  l !! d = Some Cancelled ->
  foldl (fun l h => <[hookDeferred h := Cancelled]> l) l hs !! d = Some Cancelled.
Proof.
  induction hs as [|x hs IH]; intros l d Hl; [exact Hl|]. simpl.
  apply IH. destruct (decide (hookDeferred x = d)) as [E|E].
  - rewrite E. apply list_lookup_insert_eq. eapply lookup_lt_Some, Hl.
  - rewrite list_lookup_insert_ne by exact E. exact Hl.
Qed.

Lemma cancel_fold_lookup (hooks : list Hook) : forall (l : list Deferred) h,
  h ∈ hooks -> (hookDeferred h < length l)%nat ->
  foldl (fun l h => <[hookDeferred h := Cancelled]> l) l hooks
    !! hookDeferred h = Some Cancelled.
Proof.
  induction hooks as [|h0 hooks IH]; intros l h Hin Hlt; [inversion Hin|].
  simpl. apply elem_of_cons in Hin as [->|Hin].
  - apply cancel_fold_keeps, list_lookup_insert_eq, Hlt.
  - apply IH; [exact Hin|]. rewrite length_insert. exact Hlt.
Qed.

(** X29: when the transporter reports an error, the Connection is
    disconnected with database 0, every command that waited for the end
    of the connect sequence has its Deferred cancelled, all hooks are
    gone, and nothing is handed to the transporter. *)
Theorem transport_error_cancels_waiting ssh err c h :
  h ∈ contexts c ->
  (hookDeferred h < length (deferreds c))%nat ->
  let c' := onErrorOccurred ssh err c in
  deferreds c' !! hookDeferred h = Some Cancelled /\
  contexts c' = [] /\ worker c' = worker c /\
  isConnected c' = false /\ m_dbNumber c' = 0.
Proof.
  intros Hin Hlt. cbv zeta. unfold onErrorOccurred, emit.
  destruct (cancel_fold ("Disconnect on error: " +:+ err) (contexts (disconnect c))
              ssh (withContexts [] (disconnect c)) eq_refl)
    as (H1 & H2 & H3 & H4 & H5).
  cbv zeta in *. rewrite H1, H2, H3, H4, H5. simpl.
  split; [|unfold isConnected; simpl; rewrite andb_false_r; auto].
  apply cancel_fold_lookup; assumption.
Qed.

Lemma transport_error_cancels_waiting_witness :
  let c := (runCommand true GET_foo (newConnection cfgExample true)).2 in
  let c' := onErrorOccurred true "Connection refused" c in
  deferreds c' !! hookDeferred (RunAfterConnect GET_foo 0) = Some Cancelled /\
  contexts c' = [] /\ worker c' = worker c /\
  isConnected c' = false /\ m_dbNumber c' = 0.
Proof.
  apply (transport_error_cancels_waiting true "Connection refused"
           (runCommand true GET_foo (newConnection cfgExample true)).2
           (RunAfterConnect GET_foo 0)).
  - left.
  - simpl. lia.
Defined.

(** X30: with autoConnect, a second command issued after the first one
    started the connect sequence, and before [auth] has ended, is handed
    to the transporter at once, while the first one is handed over only
    at authOk: the second command reaches the transporter before the
    first. *)
Theorem second_command_overtakes ssh cfg cmd1 cmd2 final :
  Config.isValid cfg = true ->
  (useSshTunnel cfg = true -> ssh = true) ->
  Cmd.isValid cmd1 = true ->
  Cmd.isValid cmd2 = true ->
  succeeded (authSignals cfg final) = true ->
  let c1 := (runCommand ssh cmd1 (newConnection cfg true)).2 in
  let r2 := runCommand ssh cmd2 c1 in
  let c3 := onConnected ssh final r2.2 in
  r2.1 = inr (CommandFuture cmd2) /\
  worker r2.2 = [cmd2] /\
  worker c3 = [cmd2; cmd1] /\
  deferreds c3 = [CompletedWith (CommandFuture cmd1)].
Proof.
  intros Hcfg Hssh Hcmd1 Hcmd2 Hok. cbv zeta.
  assert (Hc1 : (runCommand ssh cmd1 (newConnection cfg true)).2 =
                mkConnection cfg 0 Normal true false noServerInfo true
                  [RunAfterConnect cmd1 0] [Pending] [] []).
  { unfold runCommand, connect, newConnection, isConnected. simpl.
    rewrite Hcmd1, Hcfg. simpl.
    destruct (useSshTunnel cfg) eqn:Et; simpl; [rewrite (Hssh eq_refl)|];
      reflexivity. }
  rewrite Hc1.
  assert (Hr2 : runCommand ssh cmd2
                  (mkConnection cfg 0 Normal true false noServerInfo true
                     [RunAfterConnect cmd1 0] [Pending] [] []) =
                (inr (CommandFuture cmd2),
                 mkConnection cfg 0 Normal true false noServerInfo true
                   [RunAfterConnect cmd1 0] [Pending] [cmd2] []))
    by (unfold runCommand; rewrite Hcmd2; reflexivity).
  rewrite Hr2. cbn [fst snd].
  split; [reflexivity|]. split; [reflexivity|].
  match goal with
  | |- context [onConnected ssh final ?c] =>
      destruct (onConnected_unfold ssh final c) as (mode & info & ->)
  end.
  simpl m_config.
  unfold Cmd.isValid in Hcmd1.
  destruct cmd1 as [[|a parts] dbi hp]; [discriminate|clear Hcmd1].
  destruct (authSignals_cases cfg final)
    as [(logs & Hs)|[(logs & h & p & Hs)|[(logs & ch & s & Hs)
        |[(logs & ch & s & e & Hs)|(logs & ch & s & e & Hs)]]]];
    rewrite Hs in Hok |- *; rewrite succeeded_logs in Hok; try discriminate Hok.
  rewrite foldl_app, emit_logs. split; reflexivity.
Qed.

Lemma second_command_overtakes_witness :
  let c1 := (runCommand true GET_foo (newConnection cfgExample true)).2 in
  let r2 := runCommand true SET_bar c1 in
  let c3 := onConnected true standaloneServer r2.2 in
  r2.1 = inr (CommandFuture SET_bar) /\
  worker r2.2 = [SET_bar] /\
  worker c3 = [SET_bar; GET_foo] /\
  deferreds c3 = [CompletedWith (CommandFuture GET_foo)].
Proof.
  apply (second_command_overtakes true cfgExample GET_foo SET_bar standaloneServer);
    reflexivity.
Defined.
